(** * The volume mount controller of pkg/volumes/mounter.go

    A shallow embedding of [VolumeMountController] and its three routines
    ([attachMasterVolumes], [safeFormatAndMount], [mountMasterVolumes]) as
    state-passing functions, followed by the properties of the controller.

    The routines talk to three collaborators that live outside the file: the
    volume provider (the Go interface [Volumes]), the mount and exec layer of
    [k8s.io/kubernetes/pkg/util/mount] together with [os], and the path
    translator [PathFor].  They are taken as parameters: every theorem holds
    for all of their implementations. *)

From Stdlib Require Import String ZArith List Lia.
From stdpp Require Import base option list functions gmap strings.

Open Scope string_scope.
Open Scope list_scope.

(** ** Data *)

(** A [*Volume]: [None] is Go's [nil], [Some l] points at the [Volume] stored
    at location [l]. *)
Definition loc := nat.
Abbreviation ptr := (option loc).

(** Modelled from the spec: the [Volume] struct, which is declared in another
    file of the package; the fields are the five the controller reads or
    writes. *)
Record Volume := mkVolume {
  ProviderID : string;
  AttachedTo : string;
  LocalDevice : string;
  MountName : string;
  Mountpoint : string
}.

Definition set_Mountpoint (m : string) (v : Volume) : Volume :=
  {| ProviderID := ProviderID v; AttachedTo := AttachedTo v;
     LocalDevice := LocalDevice v; MountName := MountName v; Mountpoint := m |}.

Definition set_LocalDevice (d : string) (v : Volume) : Volume :=
  {| ProviderID := ProviderID v; AttachedTo := AttachedTo v;
     LocalDevice := d; MountName := MountName v; Mountpoint := Mountpoint v |}.

(** [mount.MountPoint], restricted to the two fields that are read. *)
Record MountPoint := mkMountPoint { Device : string; Path : string }.

(** Go [error] values.  [ExtError] is an error produced by a collaborator,
    with the answer [os.IsNotExist] gives on it; [Errorf] is the value built
    by [fmt.Errorf], kept as its format and arguments. *)
Inductive error : Type :=
| ExtError (notExist : bool) (msg : string)
| Errorf (format : string) (args : list fmtarg)
with fmtarg : Type :=
| AStr (s : string)
| AErr (e : error)
| AVols (vs : list ptr)
| AMount (m : MountPoint).

Definition os_IsNotExist (e : error) : bool :=
  match e with
  | ExtError b _ => b
  | Errorf _ _ => false
  end.

(** The two mount implementations: [mount.New("")] with [mount.NewOsExec()]
    works in the caller's namespaces, [mount.NewNsenterMounter()] with
    [NewNsEnterExec()] in the host's. *)
Inductive mounter := OsMounter | NsenterMounter.

Inductive severity := Info | Warning | V (level : nat).

(** [time.Duration] counts nanoseconds. *)
Definition Second : Z := 1000000000.

(** What the controller does to the outside, in order. *)
Inductive event :=
| EvFindVolumes
| EvAttachVolume (v : ptr)
| EvFindMountedVolume (v : ptr)
| EvSleep (d : Z)
| EvStat (path : string)
| EvMkdirAll (path : string) (perm : N)
| EvList (m : mounter)
| EvFormatAndMount (m : mounter) (device target fstype : string) (options : list string)
| EvGetDeviceNameFromMount (m : mounter) (target : string)
| EvMount (m : mounter) (source target fstype : string) (options : list string)
| EvLog (sev : severity) (format : string) (args : list fmtarg).

Definition is_attach (e : event) : bool :=
  match e with EvAttachVolume _ => true | _ => false end.

Definition is_find_mounted (e : event) : bool :=
  match e with EvFindMountedVolume _ => true | _ => false end.

Definition is_sleep (e : event) : bool :=
  match e with EvSleep _ => true | _ => false end.

Definition is_format_and_mount (e : event) : bool :=
  match e with EvFormatAndMount _ _ _ _ _ => true | _ => false end.

(** The calls that change the machine: directory creation, format-and-mount
    and the plain mount of the namespace bridge. *)
Definition is_mutation (e : event) : bool :=
  match e with
  | EvMkdirAll _ _ | EvFormatAndMount _ _ _ _ _ | EvMount _ _ _ _ _ => true
  | _ => false
  end.

Definition is_log (e : event) : bool :=
  match e with EvLog _ _ _ => true | _ => false end.

(** ** The collaborators *)

(** What the provider can see and change: its own world and the volumes it
    handed out by pointer. *)
Record Store (W : Type) := mkStore {
  world : W;
  heap : loc → Volume
}.
Arguments mkStore {W}.
Arguments world {W}.
Arguments heap {W}.

(** The Go interface [Volumes]. *)
Class Volumes (W : Type) := {
  FindVolumes : Store W → (list ptr * option error) * Store W;
  AttachVolume : ptr → Store W → option error * Store W;
  FindMountedVolume : ptr → Store W → (string * option error) * Store W
}.

(** [os] and the mount package. *)
Class Host (W : Type) := {
  os_Stat : string → W → option error * W;
  os_MkdirAll : string → N → W → option error * W;
  mount_List : mounter → W → (list MountPoint * option error) * W;
  mount_FormatAndMount :
    mounter → string → string → string → list string → W → option error * W;
  mount_GetDeviceNameFromMount :
    mounter → string → W → (string * Z * option error) * W;
  mount_Mount :
    mounter → string → string → string → list string → W → option error * W
}.

(** ** The controller's monad *)

(** How a routine ends: it returns, the process exits in [glog.Fatalf], a nil
    pointer is dereferenced, or the wait loop is still running when the fuel
    is used up. *)
Inductive outcome (A : Type) :=
| Ret (a : A)
| Fatal (format : string)
| Panic
| Running.
Arguments Ret {A}.
Arguments Fatal {A}.
Arguments Panic {A}.
Arguments Running {A}.

Section Monad.

Context {W : Type}.

(** [mounted] is the field [k.mounted]; [store] is shared with the provider;
    [trace] is the history of calls. *)
Record State := mkState {
  store : Store W;
  mounted : gmap string ptr;
  trace : list event
}.

Definition M (A : Type) : Type := State → outcome A * State.

Definition ret {A} (a : A) : M A := λ s, (Ret a, s).

Definition bind {A B} (c : M A) (k : A → M B) : M B :=
  λ s, match c s with
       | (Ret a, s') => k a s'
       | (Fatal f, s') => (Fatal f, s')
       | (Panic, s') => (Panic, s')
       | (Running, s') => (Running, s')
       end.

End Monad.

Arguments State : clear implicits.
Arguments M : clear implicits.

Notation "'let*' x ':=' c 'in' k" := (bind c (λ x, k))
  (at level 10, x pattern, c at level 100, k at level 200).
Notation "c ;; k" := (bind c (λ _, k))
  (at level 100, k at level 200, right associativity).

Section Controller.

Context {W : Type} `{!Volumes W} `{!Host W}.

(** The package variable [Containerized] and the function [PathFor], both
    declared outside the file. *)
Variable Containerized : bool.
Variable PathFor : string → string.

#[local] Abbreviation M := (M W).
#[local] Abbreviation State := (State W).

Definition emit (e : event) : M unit :=
  λ s, (Ret tt, mkState (store s) (mounted s) (trace s ++ [e])).

Definition glog (sev : severity) (format : string) (args : list fmtarg) : M unit :=
  emit (EvLog sev format args).

Definition glog_Fatalf {A} (format : string) : M A := λ s, (Fatal format, s).

Definition running {A} : M A := λ s, (Running, s).

(** A call into the provider, and a call into the host. *)
Definition provider {A} (e : event) (f : Store W → A * Store W) : M A :=
  emit e ;;
  λ s, let (a, st) := f (store s) in (Ret a, mkState st (mounted s) (trace s)).

Definition host {A} (e : event) (f : W → A * W) : M A :=
  emit e ;;
  λ s, let (a, w) := f (world (store s)) in
       (Ret a, mkState (mkStore w (heap (store s))) (mounted s) (trace s)).

(** [*v] and [v.Mountpoint = m]. *)
Definition deref (v : ptr) : M Volume :=
  λ s, match v with
       | Some l => (Ret (heap (store s) l), s)
       | None => (Panic, s)
       end.

Definition assign_Mountpoint (v : ptr) (m : string) : M unit :=
  λ s, match v with
       | Some l =>
           (Ret tt,
            mkState (mkStore (world (store s))
                       (<[l := set_Mountpoint m (heap (store s) l)]> (heap (store s))))
              (mounted s) (trace s))
       | None => (Panic, s)
       end.

Definition get_mounted : M (gmap string ptr) := λ s, (Ret (mounted s), s).

Definition put_mounted (key : string) (v : ptr) : M unit :=
  λ s, (Ret tt, mkState (store s) (<[key := v]> (mounted s)) (trace s)).

(** [newVolumeMountController]: the map starts empty. *)
Definition newVolumeMountController (st : Store W) : State :=
  mkState st ∅ [].

(** ** attachMasterVolumes *)

(** Lines 216-223: the partition of the provider's volumes. *)
Fixpoint partitionVolumes (volumes tryAttach attached : list ptr)
  : M (list ptr * list ptr) :=
  match volumes with
  | [] => ret (tryAttach, attached)
  | v :: rest =>
      let* vol := deref v in
      let tryAttach := if String.eqb (AttachedTo vol) "" then tryAttach ++ [v] else tryAttach in
      let attached := if negb (String.eqb (LocalDevice vol) "") then attached ++ [v] else attached in
      partitionVolumes rest tryAttach attached
  end.

(** Lines 230-248: the attach loop. *)
Fixpoint attachLoop (tryAttach attached : list ptr) : M (list ptr) :=
  match tryAttach with
  | [] => ret attached
  | v :: rest =>
      if (0 <? length attached)%nat then ret attached
      else
        let* vol := deref v in
        glog (V 2) "Trying to mount master volume: %q" [AStr (ProviderID vol)] ;;
        let* err := provider (EvAttachVolume v) (AttachVolume v) in
        match err with
        | Some e =>
            let* vol := deref v in
            glog Warning "Error attaching volume %q: %v" [AStr (ProviderID vol); AErr e] ;;
            attachLoop rest attached
        | None =>
            let* vol := deref v in
            if String.eqb (LocalDevice vol) ""
            then glog_Fatalf "AttachVolume did not set LocalDevice"
            else attachLoop rest (attached ++ [v])
        end
  end.

Definition attachMasterVolumes : M (list ptr * option error) :=
  let* (volumes, err) := provider EvFindVolumes FindVolumes in
  match err with
  | Some e => ret ([], Some e)
  | None =>
      let* (tryAttach, attached) := partitionVolumes volumes [] [] in
      if (length tryAttach =? 0)%nat then ret (attached, None)
      else
        let* attached := attachLoop tryAttach attached in
        glog (V 2) "Currently attached volumes: %v" [AVols attached] ;;
        ret (attached, None)
  end.

(** ** safeFormatAndMount *)

(** Lines 97-113: wait for the device to show up.  The Go loop has no bound;
    [fuel] bounds the number of polls the model follows, and the result is
    [Running] when the loop is still polling after that many. *)
Fixpoint waitForDevice (fuel : nat) (volume : ptr) : M (string * option error) :=
  match fuel with
  | O => running
  | S fuel' =>
      let* (found, err) := provider (EvFindMountedVolume volume) (FindMountedVolume volume) in
      match err with
      | Some e => ret ("", Some e)
      | None =>
          if negb (String.eqb found "") then
            let device := found in
            let* vol := deref volume in
            glog Info "Found volume %q mounted at device %q"
              [AStr (ProviderID vol); AStr device] ;;
            ret (device, None)
          else
            let* vol := deref volume in
            glog Info "Waiting for volume %q to be mounted" [AStr (ProviderID vol)] ;;
            emit (EvSleep (1 * Second)) ;;
            waitForDevice fuel' volume
      end
  end.

(** Lines 115-127: the mount and exec implementations behind
    [safeFormatAndMount]. *)
Definition hostMounter : mounter :=
  if Containerized then NsenterMounter else OsMounter.

(** Lines 136-144: the mounts whose path is the mountpoint. *)
Fixpoint existingMounts (mounts : list MountPoint) (mountpoint : string)
    (existing : list MountPoint) : M (list MountPoint) :=
  match mounts with
  | [] => ret existing
  | m :: rest =>
      glog (V 8) "found existing mount: %v" [AMount m] ;;
      existingMounts rest mountpoint
        (if String.eqb (Path m) mountpoint then existing ++ [m] else existing)
  end.

(** Lines 167-170. *)
Fixpoint logMounts (mounts : list MountPoint) : M unit :=
  match mounts with
  | [] => ret tt
  | m :: rest =>
      glog Info "%s\t%s" [AStr (Device m); AStr (Path m)] ;;
      logMounts rest
  end.

(** Lines 129-176: mount on the host unless it is mounted already.  [None] is
    the fall-through to line 178, [Some e] is [return e]. *)
Definition hostMount (device mountpoint fstype : string) : M (option error) :=
  let* (mounts, err) := host (EvList hostMounter) (mount_List hostMounter) in
  match err with
  | Some e => ret (Some (Errorf "error listing existing mounts: %v" [AErr e]))
  | None =>
      let* existing := existingMounts mounts mountpoint [] in
      if (length existing =? 0)%nat then
        let options : list string := [] in
        glog Info "Creating mount directory %q" [AStr (PathFor mountpoint)] ;;
        let* err := host (EvMkdirAll (PathFor mountpoint) (7 * 64 + 5 * 8 + 0))
                      (os_MkdirAll (PathFor mountpoint) (7 * 64 + 5 * 8 + 0)) in
        match err with
        | Some e => ret (Some e)
        | None =>
            glog Info "Mounting device %q on %q" [AStr device; AStr mountpoint] ;;
            let* err := host (EvFormatAndMount hostMounter device mountpoint fstype options)
                          (mount_FormatAndMount hostMounter device mountpoint fstype options) in
            match err with
            | Some e =>
                ret (Some (Errorf "error formatting and mounting disk %q on %q: %v"
                             [AStr device; AStr mountpoint; AErr e]))
            | None => ret None
            end
        end
      else
        glog Info "Device already mounted on %q, verifying it is our device" [AStr mountpoint] ;;
        if negb (length existing =? 1)%nat then
          glog Info "Existing mounts unexpected" [] ;;
          logMounts mounts ;;
          ret (Some (Errorf "found multiple existing mounts of %q at %q"
                       [AStr device; AStr mountpoint]))
        else
          glog Info "Found existing mount of %q at %q" [AStr device; AStr mountpoint] ;;
          ret None
  end.

(** Lines 178-203: when containerized, mount the device again inside the
    container. *)
Definition bridgeMount (device mountpoint fstype : string) : M (option error) :=
  if Containerized then
    let source := PathFor device in
    let target := PathFor mountpoint in
    let options : list string := [] in
    let* (mountedDevice, _, err) :=
      host (EvGetDeviceNameFromMount OsMounter target)
        (mount_GetDeviceNameFromMount OsMounter target) in
    match err with
    | Some e =>
        ret (Some (Errorf "error checking for mounts of %s inside container: %v"
                     [AStr target; AErr e]))
    | None =>
        if negb (String.eqb mountedDevice "") then
          if negb (String.eqb mountedDevice source) && negb (String.eqb mountedDevice device)
          then ret (Some (Errorf "device already mounted at %s, but is %s and we want %s or %s"
                            [AStr target; AStr mountedDevice; AStr source; AStr device]))
          else ret None
        else
          glog Info "mounting inside container: %s -> %s" [AStr source; AStr target] ;;
          let* err := host (EvMount OsMounter source target fstype options)
                        (mount_Mount OsMounter source target fstype options) in
          match err with
          | Some e =>
              ret (Some (Errorf "error mounting %s inside container at %s: %v"
                           [AStr source; AStr target; AErr e]))
          | None => ret None
          end
    end
  else ret None.

Definition safeFormatAndMount (fuel : nat) (volume : ptr) (mountpoint fstype : string)
  : M (option error) :=
  let* (device, err) := waitForDevice fuel volume in
  match err with
  | Some e => ret (Some e)
  | None =>
      let* err := hostMount device mountpoint fstype in
      match err with
      | Some e => ret (Some e)
      | None => bridgeMount device mountpoint fstype
      end
  end.

(** ** mountMasterVolumes *)

(** Lines 63-73: where the volume is to be mounted. *)
Definition selectMountpoint (vol : Volume) : M (string * option error) :=
  let mountpoint := "/mnt/" +:+ MountName vol in
  let* err := host (EvStat (PathFor "/mnt/disks")) (os_Stat (PathFor "/mnt/disks")) in
  match err with
  | Some e =>
      if negb (os_IsNotExist e)
      then ret ("", Some (Errorf "error checking for /mnt/disks: %v" [AErr e]))
      else ret (mountpoint, None)
  | None => ret ("/mnt/disks/" +:+ MountName vol, None)
  end.

(** Lines 50-87: the loop over the attached volumes.  [Some e] is the early
    [return nil, e] of line 69. *)
Fixpoint mountLoop (fuel : nat) (attached : list ptr) : M (option error) :=
  match attached with
  | [] => ret None
  | v :: rest =>
      let* m := get_mounted in
      if (0 <? size m)%nat then ret None
      else
        let* vol := deref v in
        match default None (m !! ProviderID vol) with
        | Some _ => mountLoop fuel rest
        | None =>
            glog (V 2) "Master volume %q is attached at %q"
              [AStr (ProviderID vol); AStr (LocalDevice vol)] ;;
            let* (mountpoint, err) := selectMountpoint vol in
            match err with
            | Some e => ret (Some e)
            | None =>
                glog Info "Doing safe-format-and-mount of %s to %s"
                  [AStr (LocalDevice vol); AStr mountpoint] ;;
                let fstype := "" in
                let* err := safeFormatAndMount fuel v mountpoint fstype in
                match err with
                | Some e =>
                    glog Warning "unable to mount master volume: %q" [AErr e] ;;
                    mountLoop fuel rest
                | None =>
                    let* vol := deref v in
                    glog Info "mounted master volume %q on %s"
                      [AStr (ProviderID vol); AStr mountpoint] ;;
                    assign_Mountpoint v (PathFor mountpoint) ;;
                    let* vol := deref v in
                    put_mounted (ProviderID vol) v ;;
                    mountLoop fuel rest
                end
            end
        end
  end.

(** Go ranges over a map in an unspecified order; the model lists the map in
    the order of [map_to_list]. *)
Definition mountMasterVolumes (fuel : nat) : M (list ptr * option error) :=
  let* (attached, err) := attachMasterVolumes in
  match err with
  | Some e => ret ([], Some (Errorf "unable to attach master volumes: %v" [AErr e]))
  | None =>
      let* err := mountLoop fuel attached in
      match err with
      | Some e => ret ([], Some e)
      | None =>
          let* m := get_mounted in
          ret ((map_to_list m).*2, None)
      end
  end.

End Controller.

(** ** A scripted provider and host

    A small implementation of the two interfaces: the provider lists fixed
    volumes and answers [AttachVolume] and [FindMountedVolume] from scripts;
    the host keeps a mount table for each namespace and a set of
    directories. *)
Module Fake.

Record machine := mkMachine {
  volumes : list ptr;
  attach_script : list (option string);
  device_script : list (string * option error);
  ns_mounts : list MountPoint;
  os_mounts : list MountPoint;
  dirs : list string
}.

Definition busy : error := ExtError false "volume is in use".
Definition enoent : error := ExtError true "no such file or directory".

(** [Some d] attaches and writes [d] into [LocalDevice]; [None], or a script
    that has run out, fails. *)
Definition attach (v : ptr) (st : Store machine) : option error * Store machine :=
  let w := world st in
  match attach_script w with
  | [] => (Some busy, st)
  | ans :: script =>
      let w' := mkMachine (volumes w) script (device_script w)
                  (ns_mounts w) (os_mounts w) (dirs w) in
      match ans, v with
      | Some d, Some l =>
          (None, mkStore w' (<[l := set_LocalDevice d (heap st l)]> (heap st)))
      | _, _ => (Some busy, mkStore w' (heap st))
      end
  end.

(** Answers from the script; when it has run out, the volume's device. *)
Definition find_mounted (v : ptr) (st : Store machine)
  : (string * option error) * Store machine :=
  let w := world st in
  match device_script w with
  | [] => ((match v with Some l => LocalDevice (heap st l) | None => "" end, None), st)
  | ans :: script =>
      (ans, mkStore (mkMachine (volumes w) (attach_script w) script
                       (ns_mounts w) (os_mounts w) (dirs w)) (heap st))
  end.

#[export] Instance fake_volumes : Volumes machine := {|
  FindVolumes st := ((volumes (world st), None), st);
  AttachVolume := attach;
  FindMountedVolume := find_mounted
|}.

Definition table (m : mounter) (w : machine) : list MountPoint :=
  match m with OsMounter => os_mounts w | NsenterMounter => ns_mounts w end.

Definition add_mount (m : mounter) (mp : MountPoint) (w : machine) : machine :=
  match m with
  | OsMounter =>
      mkMachine (volumes w) (attach_script w) (device_script w)
        (ns_mounts w) (os_mounts w ++ [mp]) (dirs w)
  | NsenterMounter =>
      mkMachine (volumes w) (attach_script w) (device_script w)
        (ns_mounts w ++ [mp]) (os_mounts w) (dirs w)
  end.

Definition mounted_device (m : mounter) (target : string) (w : machine) : string :=
  match filter (λ mp, Path mp = target) (table m w) with
  | [] => ""
  | mp :: _ => Device mp
  end.

#[export] Instance fake_host : Host machine := {|
  os_Stat path w :=
    (if bool_decide (path ∈ dirs w) then None else Some enoent, w);
  os_MkdirAll path perm w :=
    (None, mkMachine (volumes w) (attach_script w) (device_script w)
             (ns_mounts w) (os_mounts w) (dirs w ++ [path]));
  mount_List m w := ((table m w, None), w);
  mount_FormatAndMount m device target fstype options w :=
    (None, add_mount m (mkMountPoint device target) w);
  mount_GetDeviceNameFromMount m target w :=
    ((mounted_device m target w, 1%Z, None), w);
  mount_Mount m source target fstype options w :=
    (None, add_mount m (mkMountPoint source target) w)
|}.

(** [PathFor] of a containerized controller: the host's root is at
    [/rootfs]. *)
Definition rootfs (path : string) : string := "/rootfs" +:+ path.

Definition vol (id attachedTo device : string) : Volume :=
  mkVolume id attachedTo device "master-data" "".

(** Two free volumes at locations 0 and 1. *)
Definition two_free : loc → Volume :=
  λ l, match l with
       | 0 => vol "vol-a" "" ""
       | _ => vol "vol-b" "" ""
       end.

End Fake.

Import Fake.

(** ** Scenarios

    Concrete runs of the controller against the scripted collaborators. *)
Module Scenario.

(** Two free volumes: the provider refuses the first and attaches the second
    at [/dev/xvdf]; the device shows up at the second poll. *)
Definition racing : machine :=
  mkMachine [Some 0; Some 1] [None; Some "/dev/xvdf"]
    [("", None); ("/dev/xvdf", None)] [] [] [].

Definition racing_store : Store machine := mkStore racing two_free.

Definition racing_refused : Store machine :=
  (AttachVolume (Some 0) racing_store).2.

Definition racing_attached : Store machine :=
  (AttachVolume (Some 1) racing_refused).2.

Definition racing_start : State machine := newVolumeMountController racing_store.

(** The same, with a provider that accepts the second volume and writes no
    device. *)
Definition broken : machine :=
  mkMachine [Some 0; Some 1] [None; Some ""] [] [] [] [].

Definition broken_store : Store machine := mkStore broken two_free.

Definition broken_refused : Store machine :=
  (AttachVolume (Some 0) broken_store).2.

Definition broken_attached : Store machine :=
  (AttachVolume (Some 1) broken_refused).2.

Definition broken_start : State machine := newVolumeMountController broken_store.

(** A host that already holds the second volume at [/dev/xvdf]. *)
Definition one_attached : loc → Volume :=
  λ l, match l with
       | 0 => vol "vol-a" "" ""
       | _ => vol "vol-b" "i-0123" "/dev/xvdf"
       end.

Definition owner : machine :=
  mkMachine [Some 0; Some 1] [Some "/dev/xvdg"] [] [] [] [].

Definition owner_store : Store machine := mkStore owner one_attached.

Definition owner_start : State machine := newVolumeMountController owner_store.

(** The second volume is attached; the device shows up at the second poll. *)
Definition waiting_start : State machine :=
  mkState racing_attached ∅ [].

Definition waiting_polled : Store machine :=
  (FindMountedVolume (Some 1) racing_attached).2.

Definition waiting_found : Store machine :=
  (FindMountedVolume (Some 1) waiting_polled).2.

(** The same, with a provider whose second answer is an error. *)
Definition gone : error := ExtError false "volume not found".

Definition failing : machine :=
  mkMachine [Some 0; Some 1] [] [("", None); ("", Some gone)] [] [] [].

Definition failing_start : State machine :=
  mkState (mkStore failing one_attached) ∅ [].

Definition failing_polled : Store machine :=
  (FindMountedVolume (Some 1) (mkStore failing one_attached)).2.

Definition failing_failed : Store machine :=
  (FindMountedVolume (Some 1) failing_polled).2.

(** A machine with and without [/mnt/disks]. *)
Definition plain_os : State machine :=
  mkState (mkStore (mkMachine [] [] [] [] [] []) one_attached) ∅ [].

Definition container_os : State machine :=
  mkState (mkStore (mkMachine [] [] [] [] [] ["/mnt/disks"]) one_attached) ∅ [].

(** Container-Optimized OS: [/mnt/disks] exists, the second volume is
    attached and nothing is mounted yet. *)
Definition cos_start : State machine :=
  newVolumeMountController
    (mkStore (mkMachine [Some 0; Some 1] [] [] [] [] ["/mnt/disks"]) one_attached).

(** The mount table of the host: the volume mounted once, or twice. *)
Definition master_data : MountPoint := mkMountPoint "/dev/xvdf" "/mnt/master-data".
Definition boot : MountPoint := mkMountPoint "/dev/xvda1" "/".

Definition mounted_once : State machine :=
  mkState (mkStore (mkMachine [Some 1] [] [] [] [boot; master_data] []) one_attached) ∅ [].

Definition mounted_twice : State machine :=
  mkState (mkStore (mkMachine [Some 1] [] [] [] [master_data; boot; master_data] [])
             one_attached) ∅ [].

Definition twice_found : State machine :=
  (waitForDevice 5 (Some 1) mounted_twice).2.

(** A containerized controller: the host has the volume mounted, and inside
    the container [/rootfs/mnt/master-data] holds the device [dev], or
    nothing when [dev] is empty. *)
Definition in_container (dev : string) : State machine :=
  mkState
    (mkStore
       (mkMachine [Some 1] [] [] [boot; master_data]
          (if String.eqb dev "" then []
           else [mkMountPoint dev "/rootfs/mnt/master-data"]) [])
       one_attached) ∅ [].

End Scenario.

(** ** Collaborators that fail

    Variants of the scripted provider and host in which one call fails. *)
Module Faults.

Definition unreachable : error := ExtError false "provider unreachable".
Definition denied : error := ExtError false "permission denied".

(** A provider that cannot list its volumes. *)
Definition offline_volumes : Volumes machine := {|
  FindVolumes st := (([], Some unreachable), st);
  AttachVolume := attach;
  FindMountedVolume := find_mounted
|}.

(** A host on which the calls selected by the flags are denied. *)
Definition faulty_host (stat listing query : bool) : Host machine := {|
  os_Stat path w :=
    if stat then (Some denied, w) else os_Stat (Host := fake_host) path w;
  os_MkdirAll := os_MkdirAll (Host := fake_host);
  mount_List m w :=
    if listing then (([], Some denied), w)
    else mount_List (Host := fake_host) m w;
  mount_FormatAndMount := mount_FormatAndMount (Host := fake_host);
  mount_GetDeviceNameFromMount m target w :=
    if query then (("", 0%Z, Some denied), w)
    else mount_GetDeviceNameFromMount (Host := fake_host) m target w;
  mount_Mount := mount_Mount (Host := fake_host)
|}.

(** The provider lists a nil pointer. *)
Definition with_nil : State machine :=
  newVolumeMountController
    (mkStore (mkMachine [Some 0; None] [] [] [] [] []) two_free).

(** Two free volumes that the provider will not attach. *)
Definition contended : State machine :=
  newVolumeMountController
    (mkStore (mkMachine [Some 0; Some 1] [None; None] [] [] [] []) two_free).

(** The race of [Scenario.racing] after a first call. *)
Definition settled : State machine :=
  (mountMasterVolumes false id 5 Scenario.racing_start).2.

(** An attached volume on a host where the mountpoint is mounted twice. *)
Definition ambiguous_start : State machine :=
  newVolumeMountController (store Scenario.mounted_twice).

(** The states [Scenario.owner_start] goes through when the loop mounts its
    attached volume: after the mountpoint is chosen, and after the mount
    step. *)
Definition owner_selected : State machine :=
  (selectMountpoint id (Scenario.one_attached 1)
     (glog (V 2) "Master volume %q is attached at %q"
        [AStr "vol-b"; AStr "/dev/xvdf"] Scenario.owner_start).2).2.

Definition owner_mounted : State machine :=
  (safeFormatAndMount false id 5 (Some 1) "/mnt/master-data" ""
     (glog Info "Doing safe-format-and-mount of %s to %s"
        [AStr "/dev/xvdf"; AStr "/mnt/master-data"] owner_selected).2).2.

(** The same for [ambiguous_start], where the mount step fails. *)
Definition ambiguous_selected : State machine :=
  (selectMountpoint id (Scenario.one_attached 1)
     (glog (V 2) "Master volume %q is attached at %q"
        [AStr "vol-b"; AStr "/dev/xvdf"] ambiguous_start).2).2.

Definition ambiguous_failed : State machine :=
  (safeFormatAndMount false id 5 (Some 1) "/mnt/master-data" ""
     (glog Info "Doing safe-format-and-mount of %s to %s"
        [AStr "/dev/xvdf"; AStr "/mnt/master-data"] ambiguous_selected).2).2.

End Faults.

(** ** Alphabets of the routines *)

(** The one log line that reports a successful mount (line 83). *)
Definition is_mounted_log (e : event) : bool :=
  match e with
  | EvLog Info format _ => String.eqb format "mounted master volume %q on %s"
  | _ => false
  end.

Definition plain_log (e : event) : bool := is_log e && negb (is_mounted_log e).

Definition attach_event (e : event) : bool :=
  match e with
  | EvFindVolumes | EvAttachVolume _ => true
  | _ => plain_log e
  end.

Definition wait_event (e : event) : bool :=
  match e with
  | EvFindMountedVolume _ | EvSleep _ => true
  | _ => plain_log e
  end.

Definition host_mount_event (e : event) : bool :=
  match e with
  | EvList _ | EvMkdirAll _ _ | EvFormatAndMount _ _ _ _ _ => true
  | _ => plain_log e
  end.

Definition bridge_event (e : event) : bool :=
  match e with
  | EvGetDeviceNameFromMount _ _ | EvMount _ _ _ _ _ => true
  | _ => plain_log e
  end.

Definition mount_step_event (e : event) : bool :=
  wait_event e || host_mount_event e || bridge_event e.

Definition stat_event (e : event) : bool :=
  match e with
  | EvStat _ => true
  | _ => plain_log e
  end.

(** Everything but the report of a successful mount. *)
Definition quiet_event (e : event) : bool := negb (is_mounted_log e).

(** The number of successful mounts a history reports. *)
Definition mounts_reported (tr : list event) : nat :=
  length (filter (λ e, is_mounted_log e = true) tr).

(** The events other than log lines. *)
Definition calls (tr : list event) : list event :=
  filter (λ e, is_log e = false) tr.

(** The events after the first report of a successful mount. *)
Fixpoint after_mount (tr : list event) : list event :=
  match tr with
  | [] => []
  | e :: rest => if is_mounted_log e then rest else after_mount rest
  end.

(** The device of a volume read through a pointer, whether it has one, and
    whether it is attached to no host; a nil pointer stands for no volume. *)
Definition device_of (h : loc → Volume) (v : ptr) : string :=
  match v with Some l => LocalDevice (h l) | None => "" end.

Definition has_device (h : loc → Volume) (v : ptr) : bool :=
  negb (String.eqb (device_of h v) "").

Definition is_free (h : loc → Volume) (v : ptr) : bool :=
  match v with Some l => String.eqb (AttachedTo (h l)) "" | None => false end.

(** The volumes already attached to this host, and the candidates for an
    attach, among the volumes the provider lists. *)
Definition locallyAttached (h : loc → Volume) (vs : list ptr) : list ptr :=
  filter (λ v, has_device h v = true) vs.

Definition candidates (h : loc → Volume) (vs : list ptr) : list ptr :=
  filter (λ v, is_free h v = true) vs.

(** [n] rounds of the wait loop: a poll, then a sleep of one second. *)
Fixpoint polling (v : ptr) (n : nat) : list event :=
  match n with
  | O => []
  | S n' => EvFindMountedVolume v :: EvSleep Second :: polling v n'
  end.

(** ** Vocabulary of the properties *)

Section Vocabulary.

Context {W : Type} `{!Volumes W} `{!Host W}.
Variable Containerized : bool.
Variable PathFor : string → string.

#[local] Abbreviation M := (M W).
#[local] Abbreviation State := (State W).

(** [frame P c]: [c] does not touch the map of mounted volumes, and only adds
    events in [P] to the history. *)
Definition frame (P : event → bool) {A} (c : M A) : Prop :=
  ∀ s, mounted (c s).2 = mounted s
       ∧ ∃ evs, trace (c s).2 = trace s ++ evs ∧ Forall (λ e, P e = true) evs.

(** [hoare P c Q]: from a state in [P], [c] ends in a state in [Q], however it
    ends. *)
Definition hoare (P : State → Prop) {A} (c : M A) (Q : State → Prop) : Prop :=
  ∀ s, P s → Q (c s).2.

(** The controller holds no volume and has reported no mount. *)
Definition nothing_mounted (s : State) : Prop :=
  size (mounted s) = 0%nat ∧ mounts_reported (trace s) = 0%nat.

(** The single-volume invariant: at most one entry in [k.mounted], as many
    successful mounts reported as there are entries, and after the successful
    mount nothing but the attach phase. *)
Definition single_volume (s : State) : Prop :=
  (size (mounted s) ≤ 1)%nat
  ∧ mounts_reported (trace s) = size (mounted s)
  ∧ Forall (λ e, attach_event e = true) (after_mount (trace s)).

(** [attach_fails vs st st']: from [st], the provider refuses to attach each
    volume of [vs] in turn, and is left in [st']. *)
Inductive attach_fails : list ptr → Store W → Store W → Prop :=
| attach_fails_nil st : attach_fails [] st st
| attach_fails_cons v e vs st st1 st2 :
    AttachVolume v st = (Some e, st1) →
    attach_fails vs st1 st2 →
    attach_fails (v :: vs) st st2.

(** [waits v n st st']: from [st], the provider answers [n] polls for the
    device of [v] with no device and no error, and is left in [st']. *)
Inductive waits (v : ptr) : nat → Store W → Store W → Prop :=
| waits_O st : waits v 0 st st
| waits_S n st st1 st2 :
    FindMountedVolume v st = (("", None), st1) →
    waits v n st1 st2 →
    waits v (S n) st st2.

(** The states a controller goes through: it is constructed, its top-level
    routine is called any number of times, and between the calls the provider
    and the machine change as they please. *)
Inductive reachable : State → Prop :=
| reach_new st : reachable (newVolumeMountController st)
| reach_call fuel s :
    reachable s → reachable (mountMasterVolumes Containerized PathFor fuel s).2
| reach_world st s :
    reachable s → reachable (mkState st (mounted s) (trace s)).

End Vocabulary.

(** ** Disciplines of the calls *)

#[export] Instance mounter_eq_dec : EqDecision mounter.
Proof. solve_decision. Defined.

(** An attach is only tried on a volume of [cands]. *)
Definition attach_target_in (cands : list ptr) (e : event) : bool :=
  match e with
  | EvAttachVolume v => bool_decide (v ∈ cands)
  | _ => attach_event e
  end.

(** The calls a mount step for [mountpoint] and [fstype] may make when the
    mount on the host goes through [hm]: polls and sleeps; listings through
    [hm]; the creation of the host-translated mountpoint with mode 0750; a
    format-and-mount through [hm] of a device that is not empty, at the
    mountpoint, with the file system type asked for and no options; and,
    only when [containerized], the query and the mount of the bridge, in the
    caller's namespace at the host-translated mountpoint. *)
Definition mount_step_for (hm : mounter) (containerized : bool)
    (PathFor : string → string) (mountpoint fstype : string) (e : event) : bool :=
  match e with
  | EvFindMountedVolume _ | EvSleep _ => true
  | EvList m => bool_decide (m = hm)
  | EvMkdirAll path perm =>
      bool_decide (path = PathFor mountpoint ∧ perm = 488%N)
  | EvFormatAndMount m device target fs options =>
      bool_decide (m = hm ∧ device ≠ "" ∧ target = mountpoint
                   ∧ fs = fstype ∧ options = [])
  | EvGetDeviceNameFromMount m target =>
      containerized && bool_decide (m = OsMounter ∧ target = PathFor mountpoint)
  | EvMount m source target fs options =>
      containerized
      && bool_decide (m = OsMounter ∧ target = PathFor mountpoint
                      ∧ fs = fstype ∧ options = [])
  | EvLog _ _ _ => plain_log e
  | _ => false
  end.

Section Properties.

Context {W : Type} `{!Volumes W} `{!Host W}.
Variable Containerized : bool.
Variable PathFor : string → string.

#[local] Abbreviation M := (M W).
#[local] Abbreviation State := (State W).
#[local] Abbreviation frame := (frame (W:=W)).
#[local] Abbreviation hoare := (hoare (W:=W)).
#[local] Abbreviation nothing_mounted := (nothing_mounted (W:=W)).
#[local] Abbreviation single_volume := (single_volume (W:=W)).

(** *** Running the monad *)

Lemma bind_run {A B} (c : M A) (k : A → M B) s a s1 :
  c s = (Ret a, s1) → bind c k s = k a s1.
Proof. intros E. unfold bind. now rewrite E. Qed.

Lemma provider_run {A} e (f : Store W → A * Store W) (s : State) a st :
  f (store s) = (a, st) →
  provider e f s = (Ret a, mkState st (mounted s) (trace s ++ [e])).
Proof. intros E. unfold provider, bind, emit. simpl. now rewrite E. Qed.

Lemma host_run {A} e (f : W → A * W) (s : State) a w :
  f (world (store s)) = (a, w) →
  host e f s
  = (Ret a, mkState (mkStore w (heap (store s))) (mounted s) (trace s ++ [e])).
Proof. intros E. unfold host, bind, emit. simpl. now rewrite E. Qed.

Lemma bind_ret {A B} (a : A) (k : A → M B) s : bind (ret a) k s = k a s.
Proof. reflexivity. Qed.

Lemma bind_deref {B} l (k : Volume → M B) (s : State) :
  bind (deref (Some l)) k s = k (heap (store s) l) s.
Proof. reflexivity. Qed.

Lemma bind_emit {B} e (k : unit → M B) (s : State) :
  bind (emit e) k s = k tt (mkState (store s) (mounted s) (trace s ++ [e])).
Proof. reflexivity. Qed.

Lemma bind_glog {B} sev format args (k : unit → M B) (s : State) :
  bind (glog sev format args) k s
  = k tt (mkState (store s) (mounted s) (trace s ++ [EvLog sev format args])).
Proof. reflexivity. Qed.

Lemma bind_provider {A B} e (f : Store W → A * Store W) (k : A → M B)
    (s : State) a st :
  f (store s) = (a, st) →
  bind (provider e f) k s = k a (mkState st (mounted s) (trace s ++ [e])).
Proof. intros E. apply bind_run. by apply provider_run. Qed.

Lemma bind_host {A B} e (f : W → A * W) (k : A → M B) (s : State) a w :
  f (world (store s)) = (a, w) →
  bind (host e f) k s
  = k a (mkState (mkStore w (heap (store s))) (mounted s) (trace s ++ [e])).
Proof. intros E. apply bind_run. by apply host_run. Qed.

Lemma frame_ret P {A} (a : A) : frame P (ret a : M A).
Proof. intros s. split; [done|]. exists []. now rewrite app_nil_r. Qed.

Lemma frame_bind P {A B} (c : M A) (k : A → M B) :
  frame P c → (∀ a, frame P (k a)) → frame P (bind c k).
Proof.
  intros Hc Hk s. unfold bind.
  destruct (Hc s) as [Hm (evs & Ht & Hp)].
  destruct (c s) as [[a|f| |] s1]; simpl in *; try (split; [done|]; by exists evs).
  destruct (Hk a s1) as [Hm' (evs' & Ht' & Hp')].
  split; [congruence|].
  exists (evs ++ evs'). rewrite Ht', Ht, app_assoc. split; [done|].
  by apply Forall_app.
Qed.

Lemma frame_emit P e : P e = true → frame P (emit e : M unit).
Proof. intros He s. split; [done|]. exists [e]. split; [done|]. by constructor. Qed.

Lemma frame_glog P sev format args :
  P (EvLog sev format args) = true → frame P (glog sev format args : M unit).
Proof. apply frame_emit. Qed.

Lemma frame_fatal P {A} format : frame P (glog_Fatalf format : M A).
Proof. intros s. split; [done|]. exists []. now rewrite app_nil_r. Qed.

Lemma frame_running P {A} : frame P (running : M A).
Proof. intros s. split; [done|]. exists []. now rewrite app_nil_r. Qed.

Lemma frame_provider P {A} e (f : Store W → A * Store W) :
  P e = true → frame P (provider e f).
Proof.
  intros He s. destruct (f (store s)) as [a st] eqn:E.
  rewrite (provider_run _ _ _ _ _ E). simpl. split; [done|].
  exists [e]. split; [done|]. by constructor.
Qed.

Lemma frame_host P {A} e (f : W → A * W) : P e = true → frame P (host e f).
Proof.
  intros He s. destruct (f (world (store s))) as [a w] eqn:E.
  rewrite (host_run _ _ _ _ _ E). simpl. split; [done|].
  exists [e]. split; [done|]. by constructor.
Qed.

Lemma frame_deref P v : frame P (deref v : M Volume).
Proof.
  intros s. unfold deref. destruct v; simpl; (split; [done|]);
    exists []; by rewrite app_nil_r.
Qed.

Lemma frame_assign_Mountpoint P v m : frame P (assign_Mountpoint v m : M unit).
Proof.
  intros s. unfold assign_Mountpoint. destruct v; simpl; (split; [done|]);
    exists []; by rewrite app_nil_r.
Qed.

Lemma frame_get_mounted P : frame P (get_mounted : M (gmap string ptr)).
Proof. intros s. split; [done|]. exists []. now rewrite app_nil_r. Qed.

Lemma frame_mono (P Q : event → bool) {A} (c : M A) :
  (∀ e, P e = true → Q e = true) → frame P c → frame Q c.
Proof.
  intros HPQ Hc s. destruct (Hc s) as [Hm (evs & Ht & Hp)].
  split; [done|]. exists evs. split; [done|].
  eapply Forall_impl; [exact Hp|]. simpl. auto.
Qed.

Ltac frame_step :=
  match goal with
  | H : frame ?P ?c |- frame ?P ?c => exact H
  | |- frame _ (ret _) => apply frame_ret
  | |- frame _ (glog_Fatalf _) => apply frame_fatal
  | |- frame _ running => apply frame_running
  | |- frame _ (deref _) => apply frame_deref
  | |- frame _ get_mounted => apply frame_get_mounted
  | |- frame _ (assign_Mountpoint _ _) => apply frame_assign_Mountpoint
  | |- frame _ (glog _ _ _) => apply frame_glog; reflexivity
  | |- frame _ (emit _) => apply frame_emit; reflexivity
  | |- frame _ (provider _ _) => apply frame_provider; reflexivity
  | |- frame _ (host _ _) => apply frame_host; reflexivity
  | |- frame _ (bind _ _) => apply frame_bind; [| intros ?]
  | |- frame _ (match ?x with _ => _ end) => destruct x
  end.

Ltac frame_auto := repeat frame_step.

(** *** The frame of each routine *)

Lemma partitionVolumes_frame P volumes tryAttach attached :
  frame P (partitionVolumes volumes tryAttach attached).
Proof.
  revert tryAttach attached.
  induction volumes as [|v rest IH]; intros; simpl; frame_auto. apply IH.
Qed.

Lemma attachLoop_frame tryAttach attached :
  frame attach_event (attachLoop tryAttach attached).
Proof.
  revert attached.
  induction tryAttach as [|v rest IH]; intros; simpl; frame_auto; apply IH.
Qed.

Lemma attachMasterVolumes_frame : frame attach_event attachMasterVolumes.
Proof.
  unfold attachMasterVolumes. frame_auto.
  - apply partitionVolumes_frame.
  - apply attachLoop_frame.
Qed.

Lemma waitForDevice_frame fuel volume :
  frame wait_event (waitForDevice fuel volume).
Proof. induction fuel as [|fuel IH]; simpl; frame_auto. Qed.

Lemma existingMounts_frame mounts mountpoint existing :
  frame plain_log (existingMounts mounts mountpoint existing).
Proof.
  revert existing.
  induction mounts as [|m rest IH]; intros; simpl; frame_auto; apply IH.
Qed.

Lemma logMounts_frame mounts : frame plain_log (logMounts mounts).
Proof. induction mounts as [|m rest IH]; simpl; frame_auto. Qed.

Lemma plain_log_host_mount e : plain_log e = true → host_mount_event e = true.
Proof. by destruct e. Qed.

Lemma hostMount_frame device mountpoint fstype :
  frame host_mount_event (hostMount Containerized PathFor device mountpoint fstype).
Proof.
  unfold hostMount. frame_auto.
  - eapply frame_mono; [apply plain_log_host_mount | apply existingMounts_frame].
  - eapply frame_mono; [apply plain_log_host_mount | apply logMounts_frame].
Qed.

Lemma bridgeMount_frame device mountpoint fstype :
  frame bridge_event (bridgeMount Containerized PathFor device mountpoint fstype).
Proof. unfold bridgeMount. frame_auto. Qed.

Lemma safeFormatAndMount_frame fuel volume mountpoint fstype :
  frame mount_step_event
    (safeFormatAndMount Containerized PathFor fuel volume mountpoint fstype).
Proof.
  unfold safeFormatAndMount. frame_auto.
  - eapply frame_mono; [| apply waitForDevice_frame].
    intros e He. unfold mount_step_event. by rewrite He.
  - eapply frame_mono; [| apply hostMount_frame].
    intros e He. unfold mount_step_event. rewrite He. by rewrite orb_true_r.
  - eapply frame_mono; [| apply bridgeMount_frame].
    intros e He. unfold mount_step_event. rewrite He. by rewrite orb_true_r.
Qed.

Lemma selectMountpoint_frame vol : frame stat_event (selectMountpoint PathFor vol).
Proof. unfold selectMountpoint. frame_auto. Qed.

Lemma attach_event_quiet e : attach_event e = true → quiet_event e = true.
Proof.
  unfold quiet_event. destruct e; try done; simpl; unfold plain_log; simpl;
    by intros ->.
Qed.

Lemma mount_step_event_quiet e : mount_step_event e = true → quiet_event e = true.
Proof.
  unfold quiet_event, mount_step_event. destruct e; try done; simpl;
    unfold plain_log; simpl; rewrite !orb_diag; by intros ->.
Qed.

Lemma stat_event_quiet e : stat_event e = true → quiet_event e = true.
Proof.
  unfold quiet_event. destruct e; try done; simpl; unfold plain_log; simpl;
    by intros ->.
Qed.

Lemma hoare_bind (P R Q : State → Prop) {A B} (c : M A) (k : A → M B) :
  hoare P c R → (∀ a, hoare R (k a) Q) → (∀ s, R s → Q s) →
  hoare P (bind c k) Q.
Proof.
  intros Hc Hk HRQ s HP. unfold bind. specialize (Hc s HP).
  destruct (c s) as [[a|f| |] s1]; simpl in *; auto. by apply Hk.
Qed.

Lemma hoare_ret (P Q : State → Prop) {A} (a : A) :
  (∀ s, P s → Q s) → hoare P (ret a : M A) Q.
Proof. intros H s HP. by apply H. Qed.

Lemma mounts_reported_app tr evs :
  mounts_reported (tr ++ evs) = (mounts_reported tr + mounts_reported evs)%nat.
Proof. unfold mounts_reported. by rewrite filter_app, length_app. Qed.

Lemma mounts_reported_quiet evs :
  Forall (λ e, quiet_event e = true) evs → mounts_reported evs = 0%nat.
Proof.
  unfold mounts_reported, quiet_event.
  induction 1 as [|e evs He _ IH]; [done|].
  rewrite filter_cons. destruct (decide (is_mounted_log e = true)) as [Hm|Hm].
  - rewrite Hm in He. done.
  - exact IH.
Qed.

Lemma after_mount_none tr : mounts_reported tr = 0%nat → after_mount tr = [].
Proof.
  unfold mounts_reported. induction tr as [|e tr IH]; [done|].
  rewrite filter_cons. simpl. destruct (is_mounted_log e) eqn:He.
  - rewrite decide_True by done. done.
  - rewrite decide_False by done. exact IH.
Qed.

Lemma after_mount_app tr evs :
  mounts_reported tr ≠ 0%nat → after_mount (tr ++ evs) = after_mount tr ++ evs.
Proof.
  unfold mounts_reported. induction tr as [|e tr IH]; [done|].
  rewrite filter_cons. simpl. destruct (is_mounted_log e) eqn:He; [done|].
  rewrite decide_False by done. exact IH.
Qed.

Lemma after_mount_app_none tr evs :
  mounts_reported tr = 0%nat → after_mount (tr ++ evs) = after_mount evs.
Proof.
  unfold mounts_reported. induction tr as [|e tr IH]; [done|].
  rewrite filter_cons. simpl. destruct (is_mounted_log e) eqn:He.
  - rewrite decide_True by done. done.
  - rewrite decide_False by done. exact IH.
Qed.

Lemma nothing_mounted_single s : nothing_mounted s → single_volume s.
Proof.
  intros [H1 H2]. split; [lia|]. split; [congruence|].
  by rewrite after_mount_none.
Qed.

Lemma frame_quiet_keeps {A} (c : M A) s :
  frame quiet_event c →
  mounted (c s).2 = mounted s
  ∧ mounts_reported (trace (c s).2) = mounts_reported (trace s).
Proof.
  intros Hc. destruct (Hc s) as [Hm (evs & Ht & Hq)]. split; [done|].
  rewrite Ht, mounts_reported_app, (mounts_reported_quiet _ Hq). lia.
Qed.

Lemma nothing_mounted_frame {A} (c : M A) :
  frame quiet_event c → hoare nothing_mounted c nothing_mounted.
Proof.
  intros Hc s [H1 H2]. destruct (frame_quiet_keeps c s Hc) as [Hm Hr].
  split; congruence.
Qed.

Lemma single_volume_frame {A} (c : M A) :
  frame attach_event c → hoare single_volume c single_volume.
Proof.
  intros Hc s (H1 & H2 & H3). destruct (Hc s) as [Hm (evs & Ht & Hq)].
  assert (Hquiet : Forall (λ e, quiet_event e = true) evs).
  { eapply Forall_impl; [exact Hq|]. apply attach_event_quiet. }
  split; [congruence|]. split.
  - rewrite Ht, Hm, mounts_reported_app, (mounts_reported_quiet _ Hquiet). lia.
  - rewrite Ht. destruct (decide (mounts_reported (trace s) = 0%nat)) as [Hz|Hz].
    + rewrite (after_mount_app_none _ _ Hz).
      by rewrite (after_mount_none _ (mounts_reported_quiet _ Hquiet)).
    + rewrite (after_mount_app _ _ Hz). by apply Forall_app.
Qed.

(** Once a volume is held, the loop of lines 50-87 stops at once. *)
Lemma mountLoop_stops fuel attached (s : State) :
  (0 < size (mounted s))%nat →
  mountLoop Containerized PathFor fuel attached s = (Ret None, s).
Proof.
  intros Hs. destruct attached as [|v rest]; [done|]. simpl.
  unfold bind, get_mounted. apply Nat.ltb_lt in Hs. by rewrite Hs.
Qed.

(** Lines 83-86 from a state with nothing mounted: one entry, one report. *)
Lemma record_mount {B} v mountpoint (k : M B) :
  hoare single_volume k single_volume →
  hoare nothing_mounted
    (let* vol := deref v in
     glog Info "mounted master volume %q on %s"
       [AStr (ProviderID vol); AStr mountpoint] ;;
     assign_Mountpoint v (PathFor mountpoint) ;;
     let* vol := deref v in
     put_mounted (ProviderID vol) v ;;
     k)
    single_volume.
Proof.
  intros Hk s [Hsize Hrep]. destruct v as [l|]; simpl.
  - unfold bind. simpl. apply Hk.
    apply map_size_empty_inv in Hsize. rewrite Hsize.
    unfold single_volume. simpl.
    rewrite map_size_insert_None by apply lookup_empty. rewrite map_size_empty.
    split; [lia|]. split.
    + rewrite mounts_reported_app, Hrep. reflexivity.
    + rewrite (after_mount_app_none _ _ Hrep). simpl. constructor.
  - by apply nothing_mounted_single.
Qed.

Lemma mountLoop_single_volume fuel attached :
  hoare single_volume (mountLoop Containerized PathFor fuel attached) single_volume.
Proof.
  induction attached as [|v rest IH]; simpl.
  - by apply hoare_ret.
  - intros s Hs. unfold bind at 1. simpl.
    destruct (0 <? size (mounted s))%nat eqn:Hsz; [exact Hs|].
    apply Nat.ltb_ge in Hsz.
    assert (Hn : nothing_mounted s).
    { destruct Hs as [H1 H2]. split; lia. }
    clear Hs Hsz.
    unfold bind at 1. destruct v as [l|]; simpl;
      [| by apply nothing_mounted_single].
    destruct (default None (mounted s !! ProviderID (heap (store s) l))).
    { apply IH. by apply nothing_mounted_single. }
    revert Hn. generalize (heap (store s) l). intros vol. revert s.
    apply (hoare_bind nothing_mounted nothing_mounted single_volume);
      [| | apply nothing_mounted_single].
    { apply nothing_mounted_frame. by apply frame_glog. }
    intros _.
    apply (hoare_bind nothing_mounted nothing_mounted single_volume);
      [| | apply nothing_mounted_single].
    { apply nothing_mounted_frame.
      eapply frame_mono; [apply stat_event_quiet | apply selectMountpoint_frame]. }
    intros [mountpoint [e|]]; [apply hoare_ret, nothing_mounted_single|].
    apply (hoare_bind nothing_mounted nothing_mounted single_volume);
      [| | apply nothing_mounted_single].
    { apply nothing_mounted_frame. by apply frame_glog. }
    intros _.
    apply (hoare_bind nothing_mounted nothing_mounted single_volume);
      [| | apply nothing_mounted_single].
    { apply nothing_mounted_frame.
      eapply frame_mono; [apply mount_step_event_quiet | apply safeFormatAndMount_frame]. }
    intros [e|].
    + apply (hoare_bind nothing_mounted single_volume single_volume); auto.
      intros s Hs. apply nothing_mounted_single.
      revert s Hs. apply nothing_mounted_frame. by apply frame_glog.
    + by apply record_mount.
Qed.

Lemma mountMasterVolumes_single_volume fuel :
  hoare single_volume (mountMasterVolumes Containerized PathFor fuel) single_volume.
Proof.
  unfold mountMasterVolumes.
  apply (hoare_bind single_volume single_volume single_volume); auto.
  { apply single_volume_frame.
    apply attachMasterVolumes_frame. }
  intros [attached [e|]]; [by apply hoare_ret|].
  apply (hoare_bind single_volume single_volume single_volume); auto.
  { apply mountLoop_single_volume. }
  intros [e|]; [by apply hoare_ret|].
  intros s Hs. exact Hs.
Qed.

Ltac run_provider H :=
  erewrite bind_provider; [| simpl; exact H]; cbv beta iota.
Ltac run_host H :=
  erewrite bind_host; [| simpl; exact H]; cbv beta iota.

(** *** The attach phase *)

Lemma calls_app tr evs : calls (tr ++ evs) = calls tr ++ calls evs.
Proof. unfold calls. apply filter_app. Qed.

Lemma partitionVolumes_run vs : ∀ tryAttach attached (s : State),
  Forall (λ v : ptr, v ≠ None) vs →
  partitionVolumes vs tryAttach attached s
  = (Ret (tryAttach ++ candidates (heap (store s)) vs,
          attached ++ locallyAttached (heap (store s)) vs), s).
Proof.
  unfold candidates, locallyAttached.
  induction vs as [|v vs IH]; intros tryAttach attached s Hnn; simpl.
  - by rewrite !app_nil_r.
  - inversion Hnn as [|? ? Hv Hvs]; subst. destruct v as [l|]; [|done].
    unfold bind. simpl. rewrite (IH _ _ _ Hvs). rewrite !filter_cons.
    unfold has_device. simpl.
    destruct (String.eqb (AttachedTo (heap (store s) l)) "");
      destruct (String.eqb (LocalDevice (heap (store s) l)) ""); simpl;
      rewrite ?decide_True by done; rewrite ?decide_False by done;
      by rewrite <- ?app_assoc.
Qed.

Lemma attachLoop_break tryAttach attached (s : State) :
  attached ≠ [] → attachLoop tryAttach attached s = (Ret attached, s).
Proof.
  intros Hne. destruct tryAttach as [|v rest]; [done|]. simpl.
  destruct attached; [done|]. done.
Qed.

Lemma candidates_non_nil h vs : Forall (λ v : ptr, v ≠ None) (candidates h vs).
Proof.
  unfold candidates. apply Forall_forall. intros v Hv.
  apply list_elem_of_filter in Hv as [Hv _]. by destruct v.
Qed.

(** The loop of lines 230-248 when the provider refuses [failed] and then
    accepts [v]. *)
Lemma attachLoop_race failed st stK :
  attach_fails failed st stK →
  ∀ v rest st1 (s : State),
    store s = st →
    Forall (λ v : ptr, v ≠ None) failed → v ≠ None →
    AttachVolume v stK = (None, st1) →
    ∃ evs,
      attachLoop (failed ++ v :: rest) [] s
      = (if String.eqb (device_of (heap st1) v) ""
         then Fatal "AttachVolume did not set LocalDevice"
         else Ret [v],
         mkState st1 (mounted s) (trace s ++ evs))
      ∧ calls evs = EvAttachVolume <$> (failed ++ [v]).
Proof.
  induction 1 as [st|w e vs st st1' st2 Hw Hfails IH];
    intros v rest st1 s Hs Hnn Hv Hok.
  - destruct v as [l|]; [|done]. simpl.
    rewrite bind_deref, bind_glog. rewrite <- Hs in Hok.
    run_provider Hok. rewrite bind_deref. simpl.
    destruct (String.eqb (LocalDevice (heap st1 l)) "").
    + eexists. split; [by rewrite <- app_assoc|]. done.
    + rewrite attachLoop_break by done.
      eexists. split; [by rewrite <- app_assoc|]. done.
  - inversion Hnn as [|? ? Hw' Hvs]; subst. destruct w as [l|]; [|done].
    simpl. rewrite bind_deref, bind_glog.
    run_provider Hw. rewrite bind_deref, bind_glog.
    edestruct (IH v rest st1) as (evs & Hrun & Hcalls);
      [| exact Hvs | exact Hv | exact Hok |].
    2:{ rewrite Hrun. simpl. eexists. split.
        - rewrite <- !app_assoc. reflexivity.
        - rewrite !calls_app, Hcalls. done. }
    done.
Qed.

(** The attach phase up to the loop, when nothing is attached yet. *)
Lemma attachMasterVolumes_race (s : State) vs st failed v rest stK st1 :
  FindVolumes (store s) = ((vs, None), st) →
  Forall (λ v : ptr, v ≠ None) vs →
  locallyAttached (heap st) vs = [] →
  candidates (heap st) vs = failed ++ v :: rest →
  attach_fails failed st stK →
  AttachVolume v stK = (None, st1) →
  ∃ evs,
    attachLoop (candidates (heap st) vs) []
      (mkState st (mounted s) (trace s ++ [EvFindVolumes]))
    = (if String.eqb (device_of (heap st1) v) ""
       then Fatal "AttachVolume did not set LocalDevice"
       else Ret [v],
       mkState st1 (mounted s) (trace s ++ evs))
    ∧ calls evs = EvFindVolumes :: (EvAttachVolume <$> (failed ++ [v])).
Proof.
  intros Hfind Hnn Hnone Hcand Hfails Hok.
  pose proof (candidates_non_nil (heap st) vs) as Hc. rewrite Hcand in Hc.
  apply Forall_app in Hc as [Hfailed Hv]. inversion Hv as [|? ? Hv' _]; subst.
  rewrite Hcand.
  edestruct (attachLoop_race failed st stK Hfails v rest st1
               (mkState st (mounted s) (trace s ++ [EvFindVolumes])))
    as (evs & Hrun & Hcalls); [done | exact Hfailed | exact Hv' | exact Hok |].
  exists ([EvFindVolumes] ++ evs). rewrite Hrun. split.
  - simpl. by rewrite <- app_assoc.
  - by rewrite calls_app, Hcalls.
Qed.

(** C1: over any sequence of calls of the top-level routine, whatever the
    provider lists and however it and the machine behave, [k.mounted] never
    holds more than one entry; the number of successful mounts reported is the
    number of entries, hence at most one; and once a mount has succeeded the
    controller only ever runs its attach phase again. *)
Theorem single_volume_invariant (s : State) :
  reachable Containerized PathFor s →
  (size (mounted s) ≤ 1)%nat
  ∧ mounts_reported (trace s) = size (mounted s)
  ∧ Forall (λ e, attach_event e = true) (after_mount (trace s)).
Proof.
  induction 1 as [st|fuel s Hs IH|st s Hs IH].
  - simpl. rewrite map_size_empty. repeat split; [lia | constructor].
  - by apply mountMasterVolumes_single_volume.
  - exact IH.
Qed.

(** C2: when [AttachVolume] reports success on a candidate and leaves its
    [LocalDevice] empty, the attach phase ends in [glog.Fatalf]: it does not
    return, and neither does the top-level routine, which gets no further
    than the attach calls. *)
Theorem attach_contract_violation (s : State) fuel vs st failed v rest stK st1 :
  FindVolumes (store s) = ((vs, None), st) →
  Forall (λ v : ptr, v ≠ None) vs →
  locallyAttached (heap st) vs = [] →
  candidates (heap st) vs = failed ++ v :: rest →
  attach_fails failed st stK →
  AttachVolume v stK = (None, st1) →
  device_of (heap st1) v = "" →
  ∃ evs,
    let s' := mkState st1 (mounted s) (trace s ++ evs) in
    attachMasterVolumes s = (Fatal "AttachVolume did not set LocalDevice", s')
    ∧ mountMasterVolumes Containerized PathFor fuel s
      = (Fatal "AttachVolume did not set LocalDevice", s')
    ∧ calls evs = EvFindVolumes :: (EvAttachVolume <$> (failed ++ [v])).
Proof.
  intros Hfind Hnn Hnone Hcand Hfails Hok Hdev.
  destruct (attachMasterVolumes_race s vs st failed v rest stK st1)
    as (evs & Hrun & Hcalls); try done.
  rewrite Hdev in Hrun. simpl in Hrun.
  assert (Hattach : attachMasterVolumes s
            = (Fatal "AttachVolume did not set LocalDevice",
               mkState st1 (mounted s) (trace s ++ evs))).
  { unfold attachMasterVolumes. run_provider Hfind.
    rewrite (bind_run _ _ _ _ _ (partitionVolumes_run vs _ _ _ Hnn)).
    simpl. rewrite Hnone, Hcand. rewrite length_app. simpl.
    replace (length failed + S (length rest) =? 0)%nat with false
      by (symmetry; apply Nat.eqb_neq; lia).
    rewrite <- Hcand. unfold bind at 1. by rewrite Hrun. }
  exists evs. simpl. split; [exact Hattach|]. split; [|exact Hcalls].
  unfold mountMasterVolumes, bind at 1. by rewrite Hattach.
Qed.

(** C3: when the provider lists at least one volume with a [LocalDevice],
    the attach phase returns the volumes with a [LocalDevice], in the order
    listed, and calls the provider for nothing but the listing. *)
Theorem attach_keeps_existing (s : State) vs st :
  FindVolumes (store s) = ((vs, None), st) →
  Forall (λ v : ptr, v ≠ None) vs →
  locallyAttached (heap st) vs ≠ [] →
  ∃ evs,
    attachMasterVolumes s
    = (Ret (locallyAttached (heap st) vs, None),
       mkState st (mounted s) (trace s ++ EvFindVolumes :: evs))
    ∧ Forall (λ e, is_log e = true) evs
    ∧ Forall (λ e, is_attach e = false) (EvFindVolumes :: evs).
Proof.
  intros Hfind Hnn Hsome.
  unfold attachMasterVolumes. run_provider Hfind.
  rewrite (bind_run _ _ _ _ _ (partitionVolumes_run vs _ _ _ Hnn)).
  simpl. destruct (length (candidates (heap st) vs) =? 0)%nat.
  - exists []. split; [done|]. split; repeat constructor.
  - unfold bind at 1. rewrite attachLoop_break by done.
    rewrite bind_glog. eexists. split.
    + unfold ret. simpl. rewrite <- app_assoc. reflexivity.
    + split; repeat constructor.
Qed.

(** C4: when the provider refuses the first K candidates and accepts the
    next one, writing its [LocalDevice], the attach phase returns that volume
    alone and a nil error, having tried the K+1 candidates in order and no
    other. *)
Theorem attach_race_tolerance (s : State) vs st failed v rest stK st1 :
  FindVolumes (store s) = ((vs, None), st) →
  Forall (λ v : ptr, v ≠ None) vs →
  locallyAttached (heap st) vs = [] →
  candidates (heap st) vs = failed ++ v :: rest →
  attach_fails failed st stK →
  AttachVolume v stK = (None, st1) →
  device_of (heap st1) v ≠ "" →
  ∃ evs,
    attachMasterVolumes s
    = (Ret ([v], None), mkState st1 (mounted s) (trace s ++ evs))
    ∧ calls evs = EvFindVolumes :: (EvAttachVolume <$> (failed ++ [v])).
Proof.
  intros Hfind Hnn Hnone Hcand Hfails Hok Hdev.
  destruct (attachMasterVolumes_race s vs st failed v rest stK st1)
    as (evs & Hrun & Hcalls); try done.
  apply String.eqb_neq in Hdev. rewrite Hdev in Hrun.
  unfold attachMasterVolumes. run_provider Hfind.
  rewrite (bind_run _ _ _ _ _ (partitionVolumes_run vs _ _ _ Hnn)).
  simpl. rewrite Hnone, Hcand. rewrite length_app. simpl.
  replace (length failed + S (length rest) =? 0)%nat with false
    by (symmetry; apply Nat.eqb_neq; lia).
  rewrite <- Hcand. unfold bind at 1. rewrite Hrun. rewrite bind_glog.
  eexists. split.
  - unfold ret. simpl. rewrite <- app_assoc. reflexivity.
  - rewrite calls_app, Hcalls. simpl. by rewrite app_nil_r.
Qed.

(** *** The mountpoint *)

(** C5: for a volume named [master-data], the target is [/mnt/master-data]
    when [/mnt/disks] (host-translated) does not exist, and
    [/mnt/disks/master-data] when it does; any other failure of the check is
    returned as an error. *)
Theorem mountpoint_derivation (s : State) vol :
  MountName vol = "master-data" →
  (selectMountpoint PathFor vol s).1
  = match (os_Stat (PathFor "/mnt/disks") (world (store s))).1 with
    | None => Ret ("/mnt/disks/master-data", None)
    | Some e =>
        if os_IsNotExist e then Ret ("/mnt/master-data", None)
        else Ret ("", Some (Errorf "error checking for /mnt/disks: %v" [AErr e]))
    end.
Proof.
  intros Hname. unfold selectMountpoint. rewrite Hname.
  destruct (os_Stat (PathFor "/mnt/disks") (world (store s))) as [r w] eqn:Hstat.
  run_host Hstat. simpl. destruct r as [e|]; [|done].
  by destruct (os_IsNotExist e).
Qed.

(** *** The wait for the device *)

(** [n] empty answers use up [n] rounds of the loop and leave it polling. *)
Lemma waitForDevice_waits l n (st stn : Store W) :
  waits (Some l) n st stn →
  ∀ fuel (s : State), store s = st →
    ∃ evs,
      waitForDevice (n + fuel) (Some l) s
      = waitForDevice fuel (Some l) (mkState stn (mounted s) (trace s ++ evs))
      ∧ calls evs = polling (Some l) n.
Proof.
  induction 1 as [st|n st st1 st2 Hpoll Hwaits IH]; intros fuel s Hs.
  - exists []. subst st. destruct s. simpl. by rewrite app_nil_r.
  - subst st. simpl. run_provider Hpoll. simpl.
    rewrite bind_deref, bind_glog, bind_emit.
    edestruct (IH fuel) as (evs & Hrun & Hcalls); [|rewrite Hrun]; [done|].
    simpl. eexists. split.
    + rewrite <- !app_assoc. reflexivity.
    + rewrite !calls_app, Hcalls. reflexivity.
Qed.

Lemma waitForDevice_device fuel v : ∀ (s s' : State) d,
  waitForDevice fuel v s = (Ret (d, None), s') → d ≠ "".
Proof.
  induction fuel as [|fuel IH]; intros s s' d; simpl; [done|].
  unfold bind at 1.
  destruct (provider (EvFindMountedVolume v) (FindMountedVolume v) s)
    as [[[found [e|]]|f| |] s1]; try done.
  destruct (String.eqb found "") eqn:Hfound; simpl.
  - unfold bind at 1. destruct v as [l|]; simpl; [|done].
    rewrite bind_glog, bind_emit. apply IH.
  - unfold bind at 1. destruct v as [l|]; simpl; [|done].
    rewrite bind_glog. unfold ret. intros [= <- _].
    by apply String.eqb_neq.
Qed.

(** C9: as long as the provider reports no device and no error, the wait
    goes on, one poll and one sleep of a second per round: after [n] such
    answers, for any [n], it has neither returned nor failed; it returns the
    device at the first poll that reports one, and a device it returns is
    never empty. *)
Theorem device_wait_unbounded (s : State) l n stn fuel dev st' fuel0 v0 (s0 : State) :
  waits (Some l) n (store s) stn →
  FindMountedVolume (Some l) stn = ((dev, None), st') →
  dev ≠ "" →
  (n < fuel)%nat →
  (∃ evs,
     waitForDevice n (Some l) s
     = (Running, mkState stn (mounted s) (trace s ++ evs))
     ∧ calls evs = polling (Some l) n)
  ∧ (∃ evs,
       waitForDevice fuel (Some l) s
       = (Ret (dev, None), mkState st' (mounted s) (trace s ++ evs))
       ∧ calls evs = polling (Some l) n ++ [EvFindMountedVolume (Some l)])
  ∧ match (waitForDevice fuel0 v0 s0).1 with
    | Ret (d, None) => d ≠ ""
    | _ => True
    end.
Proof.
  intros Hwaits Hpoll Hdev Hfuel. split; [|split].
  - destruct (waitForDevice_waits l n _ _ Hwaits 0 s eq_refl) as (evs & Hrun & Hcalls).
    exists evs. rewrite Nat.add_0_r in Hrun. by rewrite Hrun.
  - destruct (waitForDevice_waits l n _ _ Hwaits (fuel - n) s eq_refl)
      as (evs & Hrun & Hcalls).
    replace (n + (fuel - n))%nat with fuel in Hrun by lia.
    rewrite Hrun. destruct (fuel - n)%nat as [|k] eqn:Hk; [lia|]. simpl.
    run_provider Hpoll. apply String.eqb_neq in Hdev. rewrite Hdev. simpl.
    rewrite bind_deref, bind_glog. unfold ret. simpl.
    eexists. split.
    + rewrite <- !app_assoc. reflexivity.
    + rewrite !calls_app, Hcalls. reflexivity.
  - destruct (waitForDevice fuel0 v0 s0) as [[[d [e|]]|f| |] s'] eqn:Hrun; try done.
    simpl. by eapply waitForDevice_device.
Qed.

(** C10: when a poll for the device reports an error, the mount step returns
    that very error at that poll: it neither sleeps nor polls again, and does
    nothing else. *)
Theorem device_wait_provider_error (s : State) l n stn found e st'
    fuel mountpoint fstype :
  waits (Some l) n (store s) stn →
  FindMountedVolume (Some l) stn = ((found, Some e), st') →
  (n < fuel)%nat →
  ∃ evs,
    safeFormatAndMount Containerized PathFor fuel (Some l) mountpoint fstype s
    = (Ret (Some e), mkState st' (mounted s) (trace s ++ evs))
    ∧ calls evs = polling (Some l) n ++ [EvFindMountedVolume (Some l)].
Proof.
  intros Hwaits Hpoll Hfuel.
  destruct (waitForDevice_waits l n _ _ Hwaits (fuel - n) s eq_refl)
    as (evs & Hrun & Hcalls).
  replace (n + (fuel - n))%nat with fuel in Hrun by lia.
  unfold safeFormatAndMount, bind at 1. rewrite Hrun.
  destruct (fuel - n)%nat as [|k] eqn:Hk; [lia|]. simpl.
  run_provider Hpoll. unfold ret. simpl.
  eexists. split.
  - rewrite <- !app_assoc. reflexivity.
  - rewrite !calls_app, Hcalls. reflexivity.
Qed.

(** *** The mount on the host *)

Lemma existingMounts_run mounts mountpoint : ∀ existing (s : State),
  ∃ evs,
    existingMounts mounts mountpoint existing s
    = (Ret (existing ++ filter (λ m, Path m = mountpoint) mounts),
       mkState (store s) (mounted s) (trace s ++ evs))
    ∧ Forall (λ e, is_log e = true) evs.
Proof.
  induction mounts as [|m rest IH]; intros existing s; simpl.
  - exists []. destruct s. simpl. by rewrite !app_nil_r.
  - rewrite bind_glog. rewrite filter_cons.
    edestruct IH as (evs & Hrun & Hlogs). rewrite Hrun. simpl.
    eexists. split.
    + rewrite <- app_assoc. f_equal. f_equal.
      destruct (String.eqb_spec (Path m) mountpoint).
      * rewrite decide_True by done. by rewrite <- app_assoc.
      * by rewrite decide_False by done.
    + by constructor.
Qed.

Lemma logMounts_run mounts : ∀ s : State,
  ∃ evs,
    logMounts mounts s
    = (Ret tt, mkState (store s) (mounted s) (trace s ++ evs))
    ∧ Forall (λ e, is_log e = true) evs.
Proof.
  induction mounts as [|m rest IH]; intros s; simpl.
  - exists []. destruct s. simpl. by rewrite !app_nil_r.
  - rewrite bind_glog. edestruct IH as (evs & Hrun & Hlogs). rewrite Hrun.
    simpl. eexists. split.
    + rewrite <- app_assoc. reflexivity.
    + by constructor.
Qed.

(** Lines 164-172: more than one mount at the mountpoint. *)
Lemma hostMount_ambiguous (s : State) device mountpoint fstype mounts w :
  mount_List (hostMounter Containerized) (world (store s)) = ((mounts, None), w) →
  (2 ≤ length (filter (λ m, Path m = mountpoint) mounts))%nat →
  ∃ evs,
    hostMount Containerized PathFor device mountpoint fstype s
    = (Ret (Some (Errorf "found multiple existing mounts of %q at %q"
                    [AStr device; AStr mountpoint])),
       mkState (mkStore w (heap (store s))) (mounted s)
         (trace s ++ EvList (hostMounter Containerized) :: evs))
    ∧ Forall (λ e, is_log e = true) evs.
Proof.
  intros Hlist Hmany. unfold hostMount. run_host Hlist.
  destruct (existingMounts_run mounts mountpoint [] (mkState (mkStore w (heap (store s))) (mounted s)
               (trace s ++ [EvList (hostMounter Containerized)])))
    as (evs & Hrun & Hlogs).
  rewrite (bind_run _ _ _ _ _ Hrun). simpl.
  destruct (filter (λ m, Path m = mountpoint) mounts) as [|m1 [|m2 ms]];
    simpl in Hmany; try lia. simpl.
  rewrite !bind_glog.
  edestruct logMounts_run as (evs' & Hrun' & Hlogs').
  rewrite (bind_run _ _ _ _ _ Hrun'). unfold ret. simpl.
  eexists. split.
  - rewrite <- !app_assoc. reflexivity.
  - apply Forall_app. split; [done|]. repeat constructor. done.
Qed.

(** Lines 173-175: exactly one mount at the mountpoint. *)
Lemma hostMount_mounted (s : State) device mountpoint fstype mounts w :
  mount_List (hostMounter Containerized) (world (store s)) = ((mounts, None), w) →
  length (filter (λ m, Path m = mountpoint) mounts) = 1%nat →
  ∃ evs,
    hostMount Containerized PathFor device mountpoint fstype s
    = (Ret None,
       mkState (mkStore w (heap (store s))) (mounted s)
         (trace s ++ EvList (hostMounter Containerized) :: evs))
    ∧ Forall (λ e, is_log e = true) evs.
Proof.
  intros Hlist Hone. unfold hostMount. run_host Hlist.
  destruct (existingMounts_run mounts mountpoint [] (mkState (mkStore w (heap (store s))) (mounted s)
               (trace s ++ [EvList (hostMounter Containerized)])))
    as (evs & Hrun & Hlogs).
  rewrite (bind_run _ _ _ _ _ Hrun). simpl.
  destruct (filter (λ m, Path m = mountpoint) mounts) as [|m1 [|m2 ms]];
    simpl in Hone; try lia. simpl.
  rewrite !bind_glog. unfold ret. simpl.
  eexists. split.
  - rewrite <- !app_assoc. reflexivity.
  - apply Forall_app. split; [done|]. repeat constructor.
Qed.

Lemma log_no_mutation e : is_log e = true → is_mutation e = false.
Proof. by destruct e. Qed.

Lemma wait_event_no_mutation e : wait_event e = true → is_mutation e = false.
Proof. by destruct e. Qed.

(** C6: when the listing of the mounts holds two or more entries at the
    mountpoint, the mount step returns an error and has created no directory
    and mounted nothing, on the host or inside the container. *)
Theorem ambiguous_mounts_rejected (s s1 : State) fuel v device mountpoint fstype
    mounts w :
  waitForDevice fuel v s = (Ret (device, None), s1) →
  mount_List (hostMounter Containerized) (world (store s1)) = ((mounts, None), w) →
  (2 ≤ length (filter (λ m, Path m = mountpoint) mounts))%nat →
  ∃ evs,
    safeFormatAndMount Containerized PathFor fuel v mountpoint fstype s
    = (Ret (Some (Errorf "found multiple existing mounts of %q at %q"
                    [AStr device; AStr mountpoint])),
       mkState (mkStore w (heap (store s1))) (mounted s) (trace s ++ evs))
    ∧ Forall (λ e, is_mutation e = false) evs.
Proof.
  intros Hwait Hlist Hmany.
  destruct (waitForDevice_frame fuel v s) as [Hm (evs1 & Ht & Hw)].
  rewrite Hwait in Hm, Ht. simpl in Hm, Ht.
  destruct (hostMount_ambiguous s1 device mountpoint fstype mounts w Hlist Hmany)
    as (evs & Hrun & Hlogs).
  unfold safeFormatAndMount. rewrite (bind_run _ _ _ _ _ Hwait).
  rewrite (bind_run _ _ _ _ _ Hrun). unfold ret.
  exists (evs1 ++ EvList (hostMounter Containerized) :: evs). split.
  - rewrite Hm, Ht. by rewrite <- app_assoc.
  - apply Forall_app. split.
    + eapply Forall_impl; [exact Hw|]. apply wait_event_no_mutation.
    + constructor; [done|].
      eapply Forall_impl; [exact Hlogs|]. apply log_no_mutation.
Qed.

(** C7: when the listing holds exactly one entry at the mountpoint, the mount
    on the host succeeds having done nothing but list the mounts; doing it a
    second time against the same situation succeeds again, and neither call
    formats or mounts anything. *)
Theorem mount_idempotent (s : State) device mountpoint fstype mounts w mounts' w' :
  mount_List (hostMounter Containerized) (world (store s)) = ((mounts, None), w) →
  length (filter (λ m, Path m = mountpoint) mounts) = 1%nat →
  mount_List (hostMounter Containerized) w = ((mounts', None), w') →
  length (filter (λ m, Path m = mountpoint) mounts') = 1%nat →
  ∃ evs evs',
    let s1 := mkState (mkStore w (heap (store s))) (mounted s)
                (trace s ++ EvList (hostMounter Containerized) :: evs) in
    let s2 := mkState (mkStore w' (heap (store s))) (mounted s)
                (trace s1 ++ EvList (hostMounter Containerized) :: evs') in
    hostMount Containerized PathFor device mountpoint fstype s = (Ret None, s1)
    ∧ hostMount Containerized PathFor device mountpoint fstype s1 = (Ret None, s2)
    ∧ Forall (λ e, is_log e = true) evs
    ∧ Forall (λ e, is_log e = true) evs'.
Proof.
  intros Hlist Hone Hlist' Hone'.
  destruct (hostMount_mounted s device mountpoint fstype mounts w Hlist Hone)
    as (evs & Hrun & Hlogs).
  exists evs.
  edestruct (hostMount_mounted
               (mkState (mkStore w (heap (store s))) (mounted s)
                  (trace s ++ EvList (hostMounter Containerized) :: evs))
               device mountpoint fstype mounts' w' Hlist' Hone')
    as (evs' & Hrun' & Hlogs').
  exists evs'. simpl. by rewrite Hrun, Hrun'.
Qed.

(** Outside a container the mount step is the wait and the mount on the
    host: with one mount at the mountpoint it succeeds and changes nothing. *)
Lemma safeFormatAndMount_already_mounted (s s1 : State) fuel v device
    mountpoint fstype mounts w :
  Containerized = false →
  waitForDevice fuel v s = (Ret (device, None), s1) →
  mount_List (hostMounter Containerized) (world (store s1)) = ((mounts, None), w) →
  length (filter (λ m, Path m = mountpoint) mounts) = 1%nat →
  ∃ evs,
    safeFormatAndMount Containerized PathFor fuel v mountpoint fstype s
    = (Ret None, mkState (mkStore w (heap (store s1))) (mounted s) (trace s ++ evs))
    ∧ Forall (λ e, is_mutation e = false) evs.
Proof.
  intros Hc Hwait Hlist Hone.
  destruct (waitForDevice_frame fuel v s) as [Hm (evs1 & Ht & Hw)].
  rewrite Hwait in Hm, Ht. simpl in Hm, Ht.
  destruct (hostMount_mounted s1 device mountpoint fstype mounts w Hlist Hone)
    as (evs & Hrun & Hlogs).
  unfold safeFormatAndMount. rewrite (bind_run _ _ _ _ _ Hwait).
  rewrite (bind_run _ _ _ _ _ Hrun). unfold bridgeMount. rewrite Hc. unfold ret.
  exists (evs1 ++ EvList (hostMounter false) :: evs). split.
  - rewrite Hm, Ht. by rewrite <- app_assoc.
  - apply Forall_app. split.
    + eapply Forall_impl; [exact Hw|]. apply wait_event_no_mutation.
    + constructor; [done|].
      eapply Forall_impl; [exact Hlogs|]. apply log_no_mutation.
Qed.

(** *** The mount inside the container *)

(** The mount step is the bridge once the wait and the mount on the host
    have succeeded. *)
Lemma safeFormatAndMount_bridge (s s1 s2 : State) fuel v device mountpoint fstype :
  waitForDevice fuel v s = (Ret (device, None), s1) →
  hostMount Containerized PathFor device mountpoint fstype s1 = (Ret None, s2) →
  safeFormatAndMount Containerized PathFor fuel v mountpoint fstype s
  = bridgeMount Containerized PathFor device mountpoint fstype s2.
Proof.
  intros Hwait Hhost. unfold safeFormatAndMount.
  rewrite (bind_run _ _ _ _ _ Hwait). by rewrite (bind_run _ _ _ _ _ Hhost).
Qed.

(** In either mode, with one mount at the mountpoint the mount step gets to
    the end of the mount on the host without creating a directory or
    formatting anything, whatever the bridge does afterwards. *)
Lemma safeFormatAndMount_no_format (s s1 : State) fuel v device mountpoint fstype
    mounts w :
  waitForDevice fuel v s = (Ret (device, None), s1) →
  mount_List (hostMounter Containerized) (world (store s1)) = ((mounts, None), w) →
  length (filter (λ m, Path m = mountpoint) mounts) = 1%nat →
  ∃ evs,
    trace (safeFormatAndMount Containerized PathFor fuel v mountpoint fstype s).2
    = trace s ++ evs
    ∧ Forall (λ e, is_format_and_mount e = false) evs.
Proof.
  intros Hwait Hlist Hone.
  destruct (waitForDevice_frame fuel v s) as [Hm (evs1 & Ht & Hw)].
  rewrite Hwait in Hm, Ht. simpl in Hm, Ht.
  destruct (hostMount_mounted s1 device mountpoint fstype mounts w Hlist Hone)
    as (evs & Hrun & Hlogs).
  rewrite (safeFormatAndMount_bridge _ _ _ _ _ _ _ _ Hwait Hrun).
  match goal with
  | |- context [bridgeMount _ _ _ _ _ ?s2] =>
      destruct (bridgeMount_frame device mountpoint fstype s2) as [_ (evs2 & Ht2 & Hb)]
  end.
  rewrite Ht2. simpl. rewrite Ht.
  exists (evs1 ++ (EvList (hostMounter Containerized) :: evs) ++ evs2). split.
  - by rewrite <- !app_assoc.
  - apply Forall_app. split; [|apply Forall_app; split].
    + eapply Forall_impl; [exact Hw|]. intros e. by destruct e.
    + constructor; [done|].
      eapply Forall_impl; [exact Hlogs|]. intros e. by destruct e.
    + eapply Forall_impl; [exact Hb|]. intros e. by destruct e.
Qed.

(** C8: containerized, after the mount on the host has succeeded, the device
    mounted at the host-translated target inside the container decides: if
    there is none, the host-translated device is mounted there with a plain
    [Mount] and no options; if there is one, nothing more is done, and the
    step succeeds when it is the device or its host-translated path, and
    fails when it is any other. *)
Theorem bridge_identity_check (s s1 s2 : State) fuel v device mountpoint fstype
    dev refs w :
  Containerized = true →
  waitForDevice fuel v s = (Ret (device, None), s1) →
  hostMount Containerized PathFor device mountpoint fstype s1 = (Ret None, s2) →
  mount_GetDeviceNameFromMount OsMounter (PathFor mountpoint) (world (store s2))
  = ((dev, refs, None), w) →
  let source := PathFor device in
  let target := PathFor mountpoint in
  let s3 := mkState (mkStore w (heap (store s2))) (mounted s2)
              (trace s2 ++ [EvGetDeviceNameFromMount OsMounter target]) in
  safeFormatAndMount Containerized PathFor fuel v mountpoint fstype s
  = if decide (dev = "") then
      let (r, w') := mount_Mount OsMounter source target fstype [] w in
      (Ret (match r with
            | Some e =>
                Some (Errorf "error mounting %s inside container at %s: %v"
                        [AStr source; AStr target; AErr e])
            | None => None
            end),
       mkState (mkStore w' (heap (store s2))) (mounted s2)
         (trace s3
          ++ [EvLog Info "mounting inside container: %s -> %s"
                [AStr source; AStr target];
              EvMount OsMounter source target fstype []]))
    else if decide (dev = source ∨ dev = device) then (Ret None, s3)
    else (Ret (Some (Errorf "device already mounted at %s, but is %s and we want %s or %s"
                       [AStr target; AStr dev; AStr source; AStr device])), s3).
Proof.
  intros Hc Hwait Hhost Hquery source target s3.
  rewrite (safeFormatAndMount_bridge _ _ _ _ _ _ _ _ Hwait Hhost).
  unfold bridgeMount. rewrite Hc. run_host Hquery. fold source target s3.
  destruct (decide (dev = "")) as [->|Hdev].
  - simpl. rewrite bind_glog.
    destruct (mount_Mount OsMounter source target fstype [] w) as [r w'] eqn:Hmount.
    run_host Hmount. destruct r; unfold ret; simpl; by rewrite <- app_assoc.
  - apply String.eqb_neq in Hdev. rewrite Hdev. simpl.
    destruct (decide (dev = source ∨ dev = device)) as [Hsame|Hother].
    + destruct Hsame as [-> | ->]; rewrite String.eqb_refl; simpl;
        by rewrite ?andb_false_r.
    + destruct (String.eqb_spec dev source); [tauto|].
      destruct (String.eqb_spec dev device); [tauto|]. done.
Qed.

(** *** Taking a run apart *)

Lemma bind_inv {A B} (c : M A) (k : A → M B) (s s' : State) b :
  bind c k s = (Ret b, s') →
  ∃ a s1, c s = (Ret a, s1) ∧ k a s1 = (Ret b, s').
Proof.
  unfold bind. destruct (c s) as [[a|f| |] s1]; try done. eauto.
Qed.

Lemma deref_inv v (s s' : State) vol :
  deref v s = (Ret vol, s') → ∃ l, v = Some l ∧ vol = heap (store s) l ∧ s' = s.
Proof. destruct v as [l|]; simpl; [|done]. intros [= <- <-]. eauto. Qed.

Lemma provider_inv {A} e (f : Store W → A * Store W) (s s' : State) a :
  provider e f s = (Ret a, s') →
  f (store s) = (a, store s')
  ∧ s' = mkState (store s') (mounted s) (trace s ++ [e]).
Proof.
  destruct (f (store s)) as [a' st] eqn:E. rewrite (provider_run _ _ _ _ _ E).
  by intros [= <- <-].
Qed.

Lemma frame_bind_post P {A B} (Q : A → Prop) (c : M A) (k : A → M B) :
  frame P c →
  (∀ s a s1, c s = (Ret a, s1) → Q a) →
  (∀ a, Q a → frame P (k a)) →
  frame P (bind c k).
Proof.
  intros Hc HQ Hk s. unfold bind.
  destruct (Hc s) as [Hm (evs & Ht & Hp)].
  destruct (c s) as [[a|f| |] s1] eqn:E; simpl in *;
    try (split; [done|]; by exists evs).
  destruct (Hk a (HQ _ _ _ E) s1) as [Hm' (evs' & Ht' & Hp')].
  split; [congruence|].
  exists (evs ++ evs'). rewrite Ht', Ht, app_assoc. split; [done|].
  by apply Forall_app.
Qed.

(** *** More on the attach phase *)

(** The partition either panics on a nil pointer or sorts the list, and
    changes nothing. *)
Lemma partitionVolumes_cases vs : ∀ tryAttach attached (s : State),
  partitionVolumes vs tryAttach attached s = (Panic, s)
  ∨ partitionVolumes vs tryAttach attached s
    = (Ret (tryAttach ++ candidates (heap (store s)) vs,
            attached ++ locallyAttached (heap (store s)) vs), s).
Proof.
  unfold candidates, locallyAttached.
  induction vs as [|v vs IH]; intros tryAttach attached s; simpl.
  - right. by rewrite !app_nil_r.
  - destruct v as [l|]; [|by left]. rewrite bind_deref. rewrite !filter_cons.
    unfold has_device. simpl.
    destruct (String.eqb (AttachedTo (heap (store s) l)) "");
      destruct (String.eqb (LocalDevice (heap (store s) l)) ""); simpl;
      rewrite ?decide_True by done; rewrite ?decide_False by done;
      match goal with
      | |- context [partitionVolumes vs ?ta ?at' s] =>
          destruct (IH ta at' s) as [-> | ->]; [by left | right]
      end; by rewrite <- ?app_assoc.
Qed.

Lemma attachLoop_all_refused failed st stK :
  attach_fails failed st stK →
  ∀ s : State,
    store s = st →
    Forall (λ v : ptr, v ≠ None) failed →
    ∃ evs,
      attachLoop failed [] s
      = (Ret [], mkState stK (mounted s) (trace s ++ evs))
      ∧ calls evs = EvAttachVolume <$> failed.
Proof.
  induction 1 as [st|w e vs st st1 st2 Hw Hfails IH]; intros s Hs Hnn.
  - exists []. subst st. destruct s. simpl. by rewrite app_nil_r.
  - inversion Hnn as [|? ? Hw' Hvs]; subst. destruct w as [l|]; [|done].
    simpl. rewrite bind_deref, bind_glog.
    run_provider Hw. rewrite bind_deref, bind_glog.
    edestruct IH as (evs & Hrun & Hcalls); [| exact Hvs |].
    2:{ rewrite Hrun. simpl. eexists. split.
        - rewrite <- !app_assoc. reflexivity.
        - rewrite !calls_app, Hcalls. done. }
    done.
Qed.

(** X1: when the provider cannot list its volumes, the attach phase returns
    that error as it is, and the top-level routine returns it wrapped, with
    no volume, having called nothing else. *)
Theorem listing_error_propagates (s : State) fuel vs e st :
  FindVolumes (store s) = ((vs, Some e), st) →
  let s' := mkState st (mounted s) (trace s ++ [EvFindVolumes]) in
  attachMasterVolumes s = (Ret ([], Some e), s')
  ∧ mountMasterVolumes Containerized PathFor fuel s
    = (Ret ([], Some (Errorf "unable to attach master volumes: %v" [AErr e])), s').
Proof.
  intros Hfind s'.
  assert (Hattach : attachMasterVolumes s = (Ret ([], Some e), s')).
  { unfold attachMasterVolumes. by run_provider Hfind. }
  split; [exact Hattach|].
  unfold mountMasterVolumes. by rewrite (bind_run _ _ _ _ _ Hattach).
Qed.

(** X2: when no volume is attached locally and the provider refuses every
    candidate (or there is no candidate at all), the attach phase returns no
    volume and no error, having tried each candidate once, in order. *)
Theorem attach_all_refused (s : State) vs st stK :
  FindVolumes (store s) = ((vs, None), st) →
  Forall (λ v : ptr, v ≠ None) vs →
  locallyAttached (heap st) vs = [] →
  attach_fails (candidates (heap st) vs) st stK →
  ∃ evs,
    attachMasterVolumes s
    = (Ret ([], None), mkState stK (mounted s) (trace s ++ evs))
    ∧ calls evs = EvFindVolumes :: (EvAttachVolume <$> candidates (heap st) vs).
Proof.
  intros Hfind Hnn Hnone Hfails.
  unfold attachMasterVolumes. run_provider Hfind.
  rewrite (bind_run _ _ _ _ _ (partitionVolumes_run vs _ _ _ Hnn)).
  simpl. rewrite Hnone.
  destruct (candidates (heap st) vs) as [|c cs] eqn:Hcand.
  - inversion Hfails; subst. simpl. exists [EvFindVolumes]. done.
  - change (length (c :: cs) =? 0)%nat with false. cbv iota.
    edestruct (attachLoop_all_refused (c :: cs) st stK Hfails
                 (mkState st (mounted s) (trace s ++ [EvFindVolumes])))
      as (evs & Hrun & Hcalls); [done | |].
    { rewrite <- Hcand. apply candidates_non_nil. }
    rewrite (bind_run _ _ _ _ _ Hrun). rewrite bind_glog. unfold ret.
    eexists. split.
    + simpl. rewrite <- !app_assoc. reflexivity.
    + rewrite !calls_app, Hcalls. simpl. by rewrite app_nil_r.
Qed.

Lemma attachLoop_targets tryAttach : ∀ attached cands,
  Forall (λ v, v ∈ cands) tryAttach →
  frame (attach_target_in cands) (attachLoop tryAttach attached).
Proof.
  induction tryAttach as [|v rest IH]; intros attached cands Hin; simpl.
  - apply frame_ret.
  - inversion Hin as [|? ? Hv Hrest]; subst.
    destruct (0 <? length attached)%nat; [apply frame_ret|].
    apply frame_bind; [apply frame_deref | intros vol].
    apply frame_bind; [by apply frame_glog | intros _].
    apply frame_bind.
    { apply frame_provider. simpl. by apply bool_decide_eq_true. }
    intros [e|]; frame_auto; by apply IH.
Qed.

(** X3: whatever the provider does, the attach phase only ever tries to
    attach volumes that the provider listed as attached to no host. *)
Theorem attach_only_candidates (s : State) :
  let vs := (FindVolumes (store s)).1.1 in
  let st := (FindVolumes (store s)).2 in
  ∃ evs,
    trace (attachMasterVolumes s).2 = trace s ++ evs
    ∧ Forall (λ e, attach_target_in (candidates (heap st) vs) e = true) evs.
Proof.
  unfold attachMasterVolumes.
  destruct (FindVolumes (store s)) as [[vs err] st] eqn:Hfind. simpl.
  run_provider Hfind. destruct err as [e|].
  { exists [EvFindVolumes]. split; [done|]. by constructor. }
  set (s1 := mkState st (mounted s) (trace s ++ [EvFindVolumes])).
  destruct (partitionVolumes_cases vs [] [] s1) as [Hp|Hp].
  { unfold bind. rewrite Hp. exists [EvFindVolumes]. split; [done|].
    by constructor. }
  rewrite (bind_run _ _ _ _ _ Hp). simpl.
  match goal with
  | |- context [trace (?c s1).2] =>
      assert (Hf : frame (attach_target_in (candidates (heap st) vs)) c)
  end.
  { frame_auto. apply attachLoop_targets. by apply Forall_forall. }
  destruct (Hf s1) as [_ (evs & Ht & Hev)]. rewrite Ht. simpl.
  exists (EvFindVolumes :: evs). split; [by rewrite <- app_assoc|].
  by constructor.
Qed.

Lemma attachLoop_result tryAttach : ∀ attached (s s' : State) r,
  Forall (λ v, has_device (heap (store s)) v = true) attached →
  attachLoop tryAttach attached s = (Ret r, s') →
  Forall (λ v, has_device (heap (store s')) v = true) r
  ∧ (length r ≤ Nat.max 1 (length attached))%nat.
Proof.
  induction tryAttach as [|v rest IH]; intros attached s s' r Hat Hrun;
    simpl in Hrun.
  - injection Hrun as <- <-. split; [done | lia].
  - destruct (0 <? length attached)%nat eqn:Hlen.
    { injection Hrun as <- <-. split; [done | lia]. }
    apply Nat.ltb_ge in Hlen. destruct attached; [|simpl in Hlen; lia].
    apply bind_inv in Hrun as (vol & s1 & Hd & Hrun).
    apply deref_inv in Hd as (l & -> & -> & ->).
    rewrite bind_glog in Hrun.
    apply bind_inv in Hrun as (err & s2 & Hp & Hrun).
    apply provider_inv in Hp as [Hcall Hs2]. destruct err as [e|].
    + rewrite bind_deref, bind_glog in Hrun. by apply IH in Hrun.
    + rewrite bind_deref in Hrun.
      destruct (String.eqb (LocalDevice (heap (store s2) l)) "") eqn:Hdev;
        [done|].
      apply IH in Hrun; [done|]. constructor; [|done].
      unfold has_device. simpl. by rewrite Hdev.
Qed.

(** X4: every volume the attach phase returns has a device at the moment it
    is returned; an error comes with no volume; and unless volumes were
    attached already, at most one volume is returned. *)
Theorem attach_result_attached (s s' : State) attached err :
  attachMasterVolumes s = (Ret (attached, err), s') →
  Forall (λ v, has_device (heap (store s')) v = true) attached
  ∧ (err = None ∨ attached = [])
  ∧ (length attached
     ≤ Nat.max 1 (length (locallyAttached (heap (FindVolumes (store s)).2)
                            (FindVolumes (store s)).1.1)))%nat.
Proof.
  unfold attachMasterVolumes.
  destruct (FindVolumes (store s)) as [[vs e] st] eqn:Hfind. simpl.
  run_provider Hfind. destruct e as [e|].
  { intros [= <- <- <-]. split; [constructor|]. split; [by right | simpl; lia]. }
  set (s1 := mkState st (mounted s) (trace s ++ [EvFindVolumes])).
  intros Hrun. apply bind_inv in Hrun as ([ta at'] & s2 & Hp & Hrun).
  destruct (partitionVolumes_cases vs [] [] s1) as [Hp'|Hp'];
    rewrite Hp' in Hp; [done|]. injection Hp as <- <- <-. simpl in Hrun.
  assert (Hat : Forall (λ v, has_device (heap (store s1)) v = true)
                  (locallyAttached (heap st) vs)).
  { apply Forall_forall. intros v Hv.
    by apply list_elem_of_filter in Hv as [Hv _]. }
  destruct (length (candidates (heap st) vs) =? 0)%nat.
  - injection Hrun as <- <- <-. split; [done|]. split; [by left | lia].
  - apply bind_inv in Hrun as (r & s3 & Hloop & Hrun).
    rewrite bind_glog in Hrun. injection Hrun as <- <- <-.
    apply attachLoop_result in Hloop as [Hdev Hlen]; [|done].
    split; [done|]. split; [by left | done].
Qed.

(** *** More on the top-level routine *)

Lemma bind_get_mounted {B} (k : gmap string ptr → M B) (s : State) :
  bind get_mounted k s = k (mounted s) s.
Proof. reflexivity. Qed.

Lemma bind_assign_Mountpoint {B} l m (k : unit → M B) (s : State) :
  bind (assign_Mountpoint (Some l) m) k s
  = k tt (mkState (mkStore (world (store s))
                     (<[l := set_Mountpoint m (heap (store s) l)]> (heap (store s))))
            (mounted s) (trace s)).
Proof. reflexivity. Qed.

Lemma bind_put_mounted {B} key v (k : unit → M B) (s : State) :
  bind (put_mounted key v) k s
  = k tt (mkState (store s) (<[key := v]> (mounted s)) (trace s)).
Proof. reflexivity. Qed.

Lemma selectMountpoint_run vol (s : State) r w :
  os_Stat (PathFor "/mnt/disks") (world (store s)) = (r, w) →
  selectMountpoint PathFor vol s
  = (Ret (match r with
          | None => ("/mnt/disks/" +:+ MountName vol, None)
          | Some e =>
              if os_IsNotExist e then ("/mnt/" +:+ MountName vol, None)
              else ("", Some (Errorf "error checking for /mnt/disks: %v" [AErr e]))
          end),
     mkState (mkStore w (heap (store s))) (mounted s)
       (trace s ++ [EvStat (PathFor "/mnt/disks")])).
Proof.
  intros Hstat. unfold selectMountpoint. run_host Hstat.
  destruct r as [e|]; [|done]. by destruct (os_IsNotExist e).
Qed.

Lemma selectMountpoint_error vol (s s' : State) mountpoint e :
  selectMountpoint PathFor vol s = (Ret (mountpoint, Some e), s') →
  ∃ e', e = Errorf "error checking for /mnt/disks: %v" [AErr e']
        ∧ os_IsNotExist e' = false.
Proof.
  unfold selectMountpoint.
  destruct (os_Stat (PathFor "/mnt/disks") (world (store s))) as [r w] eqn:Hstat.
  run_host Hstat. destruct r as [e'|]; [|done].
  destruct (os_IsNotExist e') eqn:He; simpl; [done|].
  intros [= _ <- _]. eauto.
Qed.

Lemma mountLoop_error fuel attached : ∀ (s s' : State) e,
  mountLoop Containerized PathFor fuel attached s = (Ret (Some e), s') →
  ∃ e', e = Errorf "error checking for /mnt/disks: %v" [AErr e']
        ∧ os_IsNotExist e' = false.
Proof.
  induction attached as [|v rest IH]; intros s s' e Hrun; simpl in Hrun;
    [done|].
  rewrite bind_get_mounted in Hrun.
  destruct (0 <? size (mounted s))%nat; [done|].
  apply bind_inv in Hrun as (vol & s1 & Hd & Hrun).
  apply deref_inv in Hd as (l & -> & -> & ->).
  destruct (default None (mounted s !! ProviderID (heap (store s) l)));
    [by eapply IH|].
  rewrite bind_glog in Hrun.
  apply bind_inv in Hrun as ([mountpoint err] & s2 & Hsel & Hrun).
  destruct err as [e0|].
  { injection Hrun as <- <-. by eapply selectMountpoint_error. }
  rewrite bind_glog in Hrun.
  apply bind_inv in Hrun as (err & s3 & Hmount & Hrun).
  destruct err as [e0|].
  - rewrite bind_glog in Hrun. by eapply IH.
  - rewrite bind_deref, bind_glog, bind_assign_Mountpoint, bind_deref,
      bind_put_mounted in Hrun.
    by eapply IH.
Qed.

Lemma attachMasterVolumes_error (s s' : State) attached e :
  attachMasterVolumes s = (Ret (attached, Some e), s') →
  (FindVolumes (store s)).1.2 = Some e.
Proof.
  unfold attachMasterVolumes.
  destruct (FindVolumes (store s)) as [[vs e0] st] eqn:Hfind. simpl.
  run_provider Hfind. destruct e0 as [e0|]; [by intros [= _ <- _]|].
  intros Hrun. apply bind_inv in Hrun as ([ta at'] & s2 & Hp & Hrun).
  destruct (length ta =? 0)%nat; [done|].
  apply bind_inv in Hrun as (r & s3 & Hloop & Hrun).
  by rewrite bind_glog in Hrun.
Qed.

(** X5: the top-level routine returns an error in two cases only, the
    provider could not list its volumes or [/mnt/disks] could not be checked,
    and then it returns no volume.  A volume that could not be attached or
    mounted never makes the call fail. *)
Theorem call_errors (s s' : State) fuel vols e :
  mountMasterVolumes Containerized PathFor fuel s = (Ret (vols, Some e), s') →
  vols = []
  ∧ ((∃ e', e = Errorf "unable to attach master volumes: %v" [AErr e']
            ∧ (FindVolumes (store s)).1.2 = Some e')
     ∨ (∃ e', e = Errorf "error checking for /mnt/disks: %v" [AErr e']
              ∧ os_IsNotExist e' = false)).
Proof.
  unfold mountMasterVolumes. intros Hrun.
  apply bind_inv in Hrun as ([attached err] & s1 & Hattach & Hrun).
  destruct err as [e0|].
  { injection Hrun as <- <- <-. split; [done|]. left. exists e0.
    split; [done|]. by eapply attachMasterVolumes_error. }
  apply bind_inv in Hrun as (err & s2 & Hloop & Hrun).
  destruct err as [e0|]; [|by rewrite bind_get_mounted in Hrun].
  injection Hrun as <- <- <-. split; [done|]. right.
  by eapply mountLoop_error.
Qed.

(** X6: a call never removes or replaces an entry of [k.mounted]; once the
    map holds an entry, a call leaves the map as it is. *)
Theorem mounted_only_grows (s : State) fuel :
  let s' := (mountMasterVolumes Containerized PathFor fuel s).2 in
  mounted s ⊆ mounted s' ∧ (mounted s = ∅ ∨ mounted s' = mounted s).
Proof.
  simpl. destruct (decide (mounted s = ∅)) as [Hempty|Hsome].
  { rewrite Hempty. split; [apply map_empty_subseteq | by left]. }
  assert (mounted (mountMasterVolumes Containerized PathFor fuel s).2 = mounted s)
    as ->; [|by split; [|right]].
  unfold mountMasterVolumes, bind at 1.
  destruct (attachMasterVolumes_frame s) as [Hm _].
  destruct (attachMasterVolumes s) as [[[attached err]|f| |] s1]; try done.
  simpl in Hm. destruct err as [e|]; [done|].
  assert (Hsize : (0 < size (mounted s1))%nat).
  { rewrite Hm. apply map_size_non_empty_iff in Hsome. lia. }
  by rewrite (bind_run _ _ _ _ _ (mountLoop_stops fuel attached s1 Hsize)).
Qed.

(** X7: once a volume is recorded, a call whose attach phase succeeds does
    nothing after that phase and returns the recorded volume. *)
Theorem settled_call (s s1 : State) fuel key v attached :
  mounted s = {[key := v]} →
  attachMasterVolumes s = (Ret (attached, None), s1) →
  mountMasterVolumes Containerized PathFor fuel s = (Ret ([v], None), s1).
Proof.
  intros Hone Hattach.
  destruct (attachMasterVolumes_frame s) as [Hm _].
  rewrite Hattach in Hm. simpl in Hm.
  assert (Hsize : (0 < size (mounted s1))%nat).
  { rewrite Hm, Hone, map_size_singleton. lia. }
  unfold mountMasterVolumes. rewrite (bind_run _ _ _ _ _ Hattach).
  rewrite (bind_run _ _ _ _ _ (mountLoop_stops fuel attached s1 Hsize)).
  rewrite bind_get_mounted, Hm, Hone. unfold ret.
  by rewrite map_to_list_singleton.
Qed.

(** X8: when [/mnt/disks] cannot be checked for a reason other than its
    absence, the call stops at the first volume it would mount and returns
    that error: nothing is polled, listed, created or mounted, and nothing
    is recorded, whatever other volumes are attached. *)
Theorem stat_error_aborts (s s1 : State) fuel l rest e w :
  mounted s = ∅ →
  attachMasterVolumes s = (Ret (Some l :: rest, None), s1) →
  os_Stat (PathFor "/mnt/disks") (world (store s1)) = (Some e, w) →
  os_IsNotExist e = false →
  mountMasterVolumes Containerized PathFor fuel s
  = (Ret ([], Some (Errorf "error checking for /mnt/disks: %v" [AErr e])),
     mkState (mkStore w (heap (store s1))) ∅
       (trace s1
        ++ [EvLog (V 2) "Master volume %q is attached at %q"
              [AStr (ProviderID (heap (store s1) l));
               AStr (LocalDevice (heap (store s1) l))];
            EvStat (PathFor "/mnt/disks")])).
Proof.
  intros Hempty Hattach Hstat Hother.
  destruct (attachMasterVolumes_frame s) as [Hm _].
  rewrite Hattach in Hm. simpl in Hm. rewrite Hempty in Hm.
  unfold mountMasterVolumes. rewrite (bind_run _ _ _ _ _ Hattach).
  match goal with
  | |- _ = (Ret (_, Some ?err), ?final) =>
      assert (Hloop : mountLoop Containerized PathFor fuel (Some l :: rest) s1
                      = (Ret (Some err), final))
  end.
  { simpl. rewrite bind_get_mounted, Hm, map_size_empty. simpl.
    rewrite bind_deref, lookup_empty. simpl. rewrite bind_glog.
    erewrite bind_run; [|apply selectMountpoint_run; exact Hstat].
    cbv beta iota. rewrite Hother. unfold ret. simpl.
    by rewrite Hm, <- app_assoc. }
  by rewrite (bind_run _ _ _ _ _ Hloop).
Qed.

(** X9: a volume whose mount step succeeds is recorded and ends the loop.
    From a controller that holds nothing: its [Mountpoint] becomes the
    host-translated mountpoint, [k.mounted] becomes the single entry from its
    [ProviderID] (as it reads after the mount step) to the volume, the success
    is logged, and the volumes after it are not looked at. *)
Theorem mount_recorded (s s2 s4 : State) fuel l rest mountpoint :
  mounted s = ∅ →
  let vol := heap (store s) l in
  selectMountpoint PathFor vol
    (glog (V 2) "Master volume %q is attached at %q"
       [AStr (ProviderID vol); AStr (LocalDevice vol)] s).2
  = (Ret (mountpoint, None), s2) →
  safeFormatAndMount Containerized PathFor fuel (Some l) mountpoint ""
    (glog Info "Doing safe-format-and-mount of %s to %s"
       [AStr (LocalDevice vol); AStr mountpoint] s2).2
  = (Ret None, s4) →
  let recorded := heap (store s4) l in
  mountLoop Containerized PathFor fuel (Some l :: rest) s
  = (Ret None,
     mkState
       (mkStore (world (store s4))
          (<[l := set_Mountpoint (PathFor mountpoint) recorded]> (heap (store s4))))
       {[ProviderID recorded := Some l]}
       (trace s4
        ++ [EvLog Info "mounted master volume %q on %s"
              [AStr (ProviderID recorded); AStr mountpoint]])).
Proof.
  intros Hempty vol Hsel Hmount recorded.
  assert (Hm4 : mounted s4 = ∅).
  { destruct (selectMountpoint_frame vol
                (glog (V 2) "Master volume %q is attached at %q"
                   [AStr (ProviderID vol); AStr (LocalDevice vol)] s).2) as [Hm2 _].
    destruct (safeFormatAndMount_frame fuel (Some l) mountpoint ""
                (glog Info "Doing safe-format-and-mount of %s to %s"
                   [AStr (LocalDevice vol); AStr mountpoint] s2).2) as [Hm3 _].
    rewrite Hsel in Hm2. rewrite Hmount in Hm3. simpl in Hm2, Hm3. congruence. }
  simpl. rewrite bind_get_mounted, Hempty, map_size_empty. simpl.
  rewrite bind_deref, lookup_empty. simpl. rewrite bind_glog.
  fold vol. rewrite (bind_run _ _ _ _ _ Hsel). rewrite bind_glog.
  rewrite (bind_run _ _ _ _ _ Hmount).
  rewrite bind_deref, bind_glog, bind_assign_Mountpoint, bind_deref,
    bind_put_mounted.
  rewrite mountLoop_stops.
  - simpl. rewrite fn_lookup_insert. simpl. fold recorded.
    by rewrite Hm4, insert_empty.
  - simpl. rewrite Hm4, map_size_insert_None by apply lookup_empty.
    rewrite map_size_empty. lia.
Qed.

(** X10: a volume whose mount step fails is passed over: the failure is
    logged as a warning, nothing is recorded, and the loop goes on with the
    volumes after it, from the state the failure left. *)
Theorem mount_failure_skipped (s s2 s4 : State) fuel l rest mountpoint e :
  mounted s = ∅ →
  let vol := heap (store s) l in
  selectMountpoint PathFor vol
    (glog (V 2) "Master volume %q is attached at %q"
       [AStr (ProviderID vol); AStr (LocalDevice vol)] s).2
  = (Ret (mountpoint, None), s2) →
  safeFormatAndMount Containerized PathFor fuel (Some l) mountpoint ""
    (glog Info "Doing safe-format-and-mount of %s to %s"
       [AStr (LocalDevice vol); AStr mountpoint] s2).2
  = (Ret (Some e), s4) →
  mounted s4 = ∅
  ∧ mountLoop Containerized PathFor fuel (Some l :: rest) s
    = mountLoop Containerized PathFor fuel rest
        (glog Warning "unable to mount master volume: %q" [AErr e] s4).2.
Proof.
  intros Hempty vol Hsel Hmount.
  assert (Hm4 : mounted s4 = ∅).
  { destruct (selectMountpoint_frame vol
                (glog (V 2) "Master volume %q is attached at %q"
                   [AStr (ProviderID vol); AStr (LocalDevice vol)] s).2) as [Hm2 _].
    destruct (safeFormatAndMount_frame fuel (Some l) mountpoint ""
                (glog Info "Doing safe-format-and-mount of %s to %s"
                   [AStr (LocalDevice vol); AStr mountpoint] s2).2) as [Hm3 _].
    rewrite Hsel in Hm2. rewrite Hmount in Hm3. simpl in Hm2, Hm3. congruence. }
  split; [exact Hm4|].
  simpl. rewrite bind_get_mounted, Hempty, map_size_empty. simpl.
  rewrite bind_deref, lookup_empty. simpl. rewrite bind_glog.
  fold vol. rewrite (bind_run _ _ _ _ _ Hsel). rewrite bind_glog.
  rewrite (bind_run _ _ _ _ _ Hmount). by rewrite bind_glog.
Qed.

(** *** More on the mount step *)

(** X11: with no mount at the mountpoint, the mount on the host creates the
    host-translated mountpoint with mode 0750 and then formats and mounts the
    device at the mountpoint with no options.  A failure to create the
    directory is returned as it is and nothing is formatted; a failure to
    format and mount is returned wrapped. *)
Theorem fresh_mount (s : State) device mountpoint fstype mounts w :
  mount_List (hostMounter Containerized) (world (store s)) = ((mounts, None), w) →
  filter (λ m, Path m = mountpoint) mounts = [] →
  ∃ evs,
    Forall (λ e, is_log e = true) evs
    ∧ hostMount Containerized PathFor device mountpoint fstype s
      = let hm := hostMounter Containerized in
        let target := PathFor mountpoint in
        let made :=
          trace s ++ EvList hm :: evs
          ++ [EvLog Info "Creating mount directory %q" [AStr target];
              EvMkdirAll target 488] in
        let (r1, w1) := os_MkdirAll target 488 w in
        match r1 with
        | Some e =>
            (Ret (Some e), mkState (mkStore w1 (heap (store s))) (mounted s) made)
        | None =>
            let (r2, w2) := mount_FormatAndMount hm device mountpoint fstype [] w1 in
            (Ret (match r2 with
                  | Some e =>
                      Some (Errorf "error formatting and mounting disk %q on %q: %v"
                              [AStr device; AStr mountpoint; AErr e])
                  | None => None
                  end),
             mkState (mkStore w2 (heap (store s))) (mounted s)
               (made
                ++ [EvLog Info "Mounting device %q on %q"
                      [AStr device; AStr mountpoint];
                    EvFormatAndMount hm device mountpoint fstype []]))
        end.
Proof.
  intros Hlist Hnone. unfold hostMount. run_host Hlist.
  destruct (existingMounts_run mounts mountpoint []
              (mkState (mkStore w (heap (store s))) (mounted s)
                 (trace s ++ [EvList (hostMounter Containerized)])))
    as (evs & Hrun & Hlogs).
  exists evs. split; [exact Hlogs|].
  rewrite (bind_run _ _ _ _ _ Hrun). rewrite Hnone. simpl.
  rewrite bind_glog.
  destruct (os_MkdirAll (PathFor mountpoint) 488 w) as [r1 w1] eqn:Hmk.
  run_host Hmk. destruct r1 as [e|].
  { unfold ret. simpl. by rewrite <- !app_assoc. }
  rewrite bind_glog.
  destruct (mount_FormatAndMount (hostMounter Containerized) device mountpoint
              fstype [] w1) as [r2 w2] eqn:Hfm.
  run_host Hfm.
  destruct r2; unfold ret; simpl; rewrite <- !app_assoc; simpl;
    by rewrite <- ?app_assoc.
Qed.

(** X12: when the mounts cannot be listed, the mount step returns that error
    wrapped, and does nothing after the listing: no directory, no mount, no
    bridge. *)
Theorem listing_mounts_error (s s1 : State) fuel v device mountpoint fstype
    mounts e w :
  waitForDevice fuel v s = (Ret (device, None), s1) →
  mount_List (hostMounter Containerized) (world (store s1)) = ((mounts, Some e), w) →
  safeFormatAndMount Containerized PathFor fuel v mountpoint fstype s
  = (Ret (Some (Errorf "error listing existing mounts: %v" [AErr e])),
     mkState (mkStore w (heap (store s1))) (mounted s1)
       (trace s1 ++ [EvList (hostMounter Containerized)])).
Proof.
  intros Hwait Hlist.
  assert (Hhost : hostMount Containerized PathFor device mountpoint fstype s1
                  = (Ret (Some (Errorf "error listing existing mounts: %v" [AErr e])),
                     mkState (mkStore w (heap (store s1))) (mounted s1)
                       (trace s1 ++ [EvList (hostMounter Containerized)]))).
  { unfold hostMount. by run_host Hlist. }
  unfold safeFormatAndMount. rewrite (bind_run _ _ _ _ _ Hwait).
  by rewrite (bind_run _ _ _ _ _ Hhost).
Qed.

(** X13: containerized, when the mounts inside the container cannot be
    queried, the mount step returns that error wrapped and mounts nothing
    inside the container. *)
Theorem bridge_query_error (s s1 s2 : State) fuel v device mountpoint fstype
    dev refs e w :
  Containerized = true →
  waitForDevice fuel v s = (Ret (device, None), s1) →
  hostMount Containerized PathFor device mountpoint fstype s1 = (Ret None, s2) →
  mount_GetDeviceNameFromMount OsMounter (PathFor mountpoint) (world (store s2))
  = ((dev, refs, Some e), w) →
  safeFormatAndMount Containerized PathFor fuel v mountpoint fstype s
  = (Ret (Some (Errorf "error checking for mounts of %s inside container: %v"
                  [AStr (PathFor mountpoint); AErr e])),
     mkState (mkStore w (heap (store s2))) (mounted s2)
       (trace s2 ++ [EvGetDeviceNameFromMount OsMounter (PathFor mountpoint)])).
Proof.
  intros Hc Hwait Hhost Hquery.
  rewrite (safeFormatAndMount_bridge _ _ _ _ _ _ _ _ Hwait Hhost).
  unfold bridgeMount. rewrite Hc. by run_host Hquery.
Qed.

Lemma plain_log_mount_step hm c mountpoint fstype e :
  plain_log e = true → mount_step_for hm c PathFor mountpoint fstype e = true.
Proof. by destruct e. Qed.

Lemma wait_event_mount_step hm c mountpoint fstype e :
  wait_event e = true → mount_step_for hm c PathFor mountpoint fstype e = true.
Proof. by destruct e. Qed.

Ltac discipline_side :=
  simpl; first [ reflexivity | by apply bool_decide_eq_true ].

Ltac discipline_step :=
  match goal with
  | |- frame _ (ret _) => apply frame_ret
  | |- frame _ (glog _ _ _) => apply frame_glog; reflexivity
  | |- frame _ (host _ _) => apply frame_host; discipline_side
  | |- frame _ (existingMounts _ _ _) =>
      eapply frame_mono; [apply plain_log_mount_step | apply existingMounts_frame]
  | |- frame _ (logMounts _) =>
      eapply frame_mono; [apply plain_log_mount_step | apply logMounts_frame]
  | |- frame _ (bind _ _) => apply frame_bind; [| intros ?]
  | |- frame _ (match ?x with _ => _ end) => destruct x
  end.

Lemma hostMount_discipline device mountpoint fstype :
  device ≠ "" →
  frame (mount_step_for (hostMounter Containerized) Containerized PathFor
           mountpoint fstype)
    (hostMount Containerized PathFor device mountpoint fstype).
Proof. intros Hdev. unfold hostMount. repeat discipline_step. Qed.

Lemma bridgeMount_discipline device mountpoint fstype :
  frame (mount_step_for (hostMounter Containerized) Containerized PathFor
           mountpoint fstype)
    (bridgeMount Containerized PathFor device mountpoint fstype).
Proof.
  unfold bridgeMount. destruct Containerized; repeat discipline_step.
Qed.

(** X14: whatever the provider and the machine do, a mount step keeps to its
    arguments: it lists and formats through the mounter of the host only,
    creates no directory but the host-translated mountpoint, formats only at
    the mountpoint, with the file system type asked for, no options and a
    device that is not empty, and touches the caller's own namespace only
    when containerized, and then only at the host-translated mountpoint.  It
    never changes [k.mounted]. *)
Theorem mount_step_discipline (s : State) fuel v mountpoint fstype :
  let s' := (safeFormatAndMount Containerized PathFor fuel v mountpoint fstype s).2 in
  mounted s' = mounted s
  ∧ ∃ evs,
      trace s' = trace s ++ evs
      ∧ Forall (λ e, mount_step_for (hostMounter Containerized) Containerized
                       PathFor mountpoint fstype e = true) evs.
Proof.
  revert s.
  change (frame (mount_step_for (hostMounter Containerized) Containerized
                   PathFor mountpoint fstype)
            (safeFormatAndMount Containerized PathFor fuel v mountpoint fstype)).
  unfold safeFormatAndMount.
  apply (frame_bind_post _ (λ r, r.2 = None → r.1 ≠ "")).
  - eapply frame_mono; [apply wait_event_mount_step | apply waitForDevice_frame].
  - intros s [d err] s1 Hwait. simpl. intros ->.
    by eapply waitForDevice_device.
  - intros [d [e|]] Hd; [apply frame_ret|].
    apply frame_bind; [apply hostMount_discipline; by apply Hd|].
    intros [e|]; [apply frame_ret | apply bridgeMount_discipline].
Qed.

(** X15: whatever the provider answers, the wait polls and sleeps in strict
    alternation: when it ends, it has made one poll more than it has slept
    and the last thing it did was a poll; when it is still going after
    [fuel] rounds, it has polled and slept [fuel] times.  Every sleep is of
    one second. *)
Theorem wait_alternates (s : State) fuel v :
  ∃ n evs,
    trace (waitForDevice fuel v s).2 = trace s ++ evs
    ∧ match (waitForDevice fuel v s).1 with
      | Running => calls evs = polling v fuel
      | _ => (n < fuel)%nat ∧ calls evs = polling v n ++ [EvFindMountedVolume v]
      end.
Proof.
  revert s. induction fuel as [|fuel IH]; intros s.
  - exists 0%nat, []. simpl. by rewrite app_nil_r.
  - simpl.
    destruct (FindMountedVolume v (store s)) as [[found err] st] eqn:Hpoll.
    run_provider Hpoll. destruct err as [e|].
    { exists 0%nat, [EvFindMountedVolume v]. simpl. split; [done|].
      split; [lia | done]. }
    destruct (String.eqb found ""); simpl.
    + destruct v as [l|].
      * rewrite bind_deref, bind_glog, bind_emit.
        match goal with
        | |- context [waitForDevice fuel (Some l) ?s1] =>
            destruct (IH s1) as (n & evs & Ht & Hshape)
        end.
        rewrite Ht. simpl.
        exists (S n), (EvFindMountedVolume (Some l)
                       :: EvLog Info "Waiting for volume %q to be mounted"
                            [AStr (ProviderID (heap st l))]
                       :: EvSleep (1 * Second) :: evs).
        split; [by rewrite <- !app_assoc|].
        assert (Hcalls : ∀ tail,
                  calls (EvFindMountedVolume (Some l)
                         :: EvLog Info "Waiting for volume %q to be mounted"
                              [AStr (ProviderID (heap st l))]
                         :: EvSleep (1 * Second) :: tail)
                  = EvFindMountedVolume (Some l) :: EvSleep Second :: calls tail)
          by reflexivity.
        rewrite Hcalls.
        destruct (waitForDevice fuel (Some l) _).1 as [r|f| |].
        1-3: destruct Hshape as [Hn Hc]; split; [lia | by rewrite Hc].
        by rewrite Hshape.
      * exists 0%nat, [EvFindMountedVolume None]. simpl. split; [done|].
        split; [lia | done].
    + destruct v as [l|].
      * rewrite bind_deref, bind_glog. unfold ret. simpl.
        eexists 0%nat, _. split; [by rewrite <- app_assoc|].
        split; [lia | done].
      * exists 0%nat, [EvFindMountedVolume None]. simpl. split; [done|].
        split; [lia | done].
Qed.

(** *** Nil volumes, and what a call returns *)

Lemma partitionVolumes_nil vs : ∀ tryAttach attached (s : State),
  None ∈ vs → partitionVolumes vs tryAttach attached s = (Panic, s).
Proof.
  induction vs as [|v vs IH]; intros tryAttach attached s Hin.
  - by apply elem_of_nil in Hin.
  - simpl. destruct v as [l|]; [|done]. rewrite bind_deref. apply IH.
    by apply elem_of_cons in Hin as [Hv|Hin].
Qed.

(** X16: a nil pointer among the volumes the provider lists makes the attach
    phase panic while it sorts the list, before it tries any attach. *)
Theorem nil_volume_panics (s : State) vs st :
  FindVolumes (store s) = ((vs, None), st) →
  None ∈ vs →
  attachMasterVolumes s
  = (Panic, mkState st (mounted s) (trace s ++ [EvFindVolumes])).
Proof.
  intros Hfind Hnil. unfold attachMasterVolumes. run_provider Hfind.
  unfold bind. by rewrite partitionVolumes_nil.
Qed.

Lemma reachable_single_volume (s : State) :
  reachable Containerized PathFor s → single_volume s.
Proof.
  induction 1 as [st|fuel s Hs IH|st s Hs IH].
  - apply nothing_mounted_single. split; [apply map_size_empty | done].
  - by apply mountMasterVolumes_single_volume.
  - exact IH.
Qed.

(** X17: a call on a controller in any state it can reach returns at most
    one volume, and a volume it returns is recorded in [k.mounted]. *)
Theorem call_returns_at_most_one (s s' : State) fuel vols err :
  reachable Containerized PathFor s →
  mountMasterVolumes Containerized PathFor fuel s = (Ret (vols, err), s') →
  (length vols ≤ 1)%nat
  ∧ Forall (λ v, ∃ key, mounted s' !! key = Some v) vols.
Proof.
  intros Hreach Hrun.
  pose proof (reachable_single_volume _ (reach_call _ _ fuel s Hreach))
    as (Hsize & _).
  rewrite Hrun in Hsize. simpl in Hsize.
  unfold mountMasterVolumes in Hrun.
  apply bind_inv in Hrun as ([attached e] & s1 & Hattach & Hrun).
  destruct e as [e|].
  { injection Hrun as <- <- <-. split; [simpl; lia | constructor]. }
  apply bind_inv in Hrun as (e & s2 & Hloop & Hrun).
  destruct e as [e|].
  { injection Hrun as <- <- <-. split; [simpl; lia | constructor]. }
  rewrite bind_get_mounted in Hrun. injection Hrun as <- <- <-. split.
  - by rewrite length_fmap, length_map_to_list.
  - apply Forall_forall. intros v Hv.
    apply list_elem_of_fmap in Hv as ([key v'] & -> & Hv).
    exists key. by apply elem_of_map_to_list.
Qed.

End Properties.

(** ** The properties at work on the scenarios *)

Import Scenario.

(** The race: the first volume is refused, the second is attached, waited
    for, formatted and mounted, and recorded with its mountpoint. *)
Example racing_result :
  (mountMasterVolumes false id 5 racing_start).1 = Ret ([Some 1], None).
Proof. vm_compute. reflexivity. Qed.

Example racing_calls :
  calls (trace (mountMasterVolumes false id 5 racing_start).2)
  = [EvFindVolumes; EvAttachVolume (Some 0); EvAttachVolume (Some 1);
     EvStat "/mnt/disks";
     EvFindMountedVolume (Some 1); EvSleep 1000000000; EvFindMountedVolume (Some 1);
     EvList OsMounter; EvMkdirAll "/mnt/master-data" 488;
     EvFormatAndMount OsMounter "/dev/xvdf" "/mnt/master-data" "" []].
Proof. vm_compute. reflexivity. Qed.

Example racing_recorded :
  let s := (mountMasterVolumes false id 5 racing_start).2 in
  mounted s !! "vol-b" = Some (Some 1)
  ∧ size (mounted s) = 1%nat
  ∧ Mountpoint (heap (store s) 1) = "/mnt/master-data".
Proof. vm_compute. done. Qed.

(** A second call lists the volumes and leaves it at that. *)
Example racing_again :
  let s := (mountMasterVolumes false id 5 racing_start).2 in
  let s' := (mountMasterVolumes false id 5 s).2 in
  calls (drop (length (trace s)) (trace s')) = [EvFindVolumes]
  ∧ size (mounted s') = 1%nat.
Proof. vm_compute. done. Qed.

(** Where [/mnt/disks] exists the volume is mounted under it. *)
Example cos_calls :
  calls (trace (mountMasterVolumes false id 5 cos_start).2)
  = [EvFindVolumes; EvStat "/mnt/disks"; EvFindMountedVolume (Some 1);
     EvList OsMounter; EvMkdirAll "/mnt/disks/master-data" 488;
     EvFormatAndMount OsMounter "/dev/xvdf" "/mnt/disks/master-data" "" []].
Proof. vm_compute. reflexivity. Qed.

Example broken_result :
  (mountMasterVolumes false id 5 broken_start).1
  = Fatal "AttachVolume did not set LocalDevice".
Proof. vm_compute. reflexivity. Qed.

(** A device that never shows up: fifty polls, and the loop is still
    running. *)
Example starving :
  (waitForDevice 50 (Some 0) broken_start).1 = Running
  ∧ calls (trace (waitForDevice 50 (Some 0) broken_start).2) = polling (Some 0) 50.
Proof. vm_compute. done. Qed.

(** The bridge: the device itself or its host-translated path is accepted,
    another device is refused, and with nothing mounted the device is
    mounted. *)
Example bridge_same_device :
  let r := safeFormatAndMount true rootfs 5 (Some 1) "/mnt/master-data" ""
             (in_container "/dev/xvdf") in
  r.1 = Ret None
  ∧ calls (trace r.2)
    = [EvFindMountedVolume (Some 1); EvList NsenterMounter;
       EvGetDeviceNameFromMount OsMounter "/rootfs/mnt/master-data"].
Proof. vm_compute. done. Qed.

Example bridge_translated_device :
  (safeFormatAndMount true rootfs 5 (Some 1) "/mnt/master-data" ""
     (in_container "/rootfs/dev/xvdf")).1 = Ret None.
Proof. vm_compute. reflexivity. Qed.

Example bridge_nothing_mounted :
  let r := safeFormatAndMount true rootfs 5 (Some 1) "/mnt/master-data" ""
             (in_container "") in
  r.1 = Ret None
  ∧ calls (trace r.2)
    = [EvFindMountedVolume (Some 1); EvList NsenterMounter;
       EvGetDeviceNameFromMount OsMounter "/rootfs/mnt/master-data";
       EvMount OsMounter "/rootfs/dev/xvdf" "/rootfs/mnt/master-data" "" []].
Proof. vm_compute. done. Qed.

Lemma single_volume_invariant_witness :
  let s := (mountMasterVolumes false id 5
              (mountMasterVolumes false id 5 racing_start).2).2 in
  (size (mounted s) ≤ 1)%nat
  ∧ mounts_reported (trace s) = size (mounted s)
  ∧ Forall (λ e, attach_event e = true) (after_mount (trace s)).
Proof.
  apply (single_volume_invariant false id).
  apply reach_call, reach_call, reach_new.
Defined.

Lemma attach_contract_violation_witness :
  ∃ evs,
    let s' := mkState broken_attached (mounted broken_start)
                (trace broken_start ++ evs) in
    attachMasterVolumes broken_start
    = (Fatal "AttachVolume did not set LocalDevice", s')
    ∧ mountMasterVolumes false id 5 broken_start
      = (Fatal "AttachVolume did not set LocalDevice", s')
    ∧ calls evs = EvFindVolumes :: (EvAttachVolume <$> ([Some 0] ++ [Some 1])).
Proof.
  apply (attach_contract_violation false id broken_start 5
           [Some 0; Some 1] broken_store [Some 0] (Some 1) [] broken_refused
           broken_attached).
  - reflexivity.
  - repeat constructor; discriminate.
  - reflexivity.
  - reflexivity.
  - eapply attach_fails_cons; [reflexivity | apply attach_fails_nil].
  - reflexivity.
  - reflexivity.
Defined.

Lemma attach_keeps_existing_witness :
  ∃ evs,
    attachMasterVolumes owner_start
    = (Ret (locallyAttached (heap owner_store) [Some 0; Some 1], None),
       mkState owner_store (mounted owner_start)
         (trace owner_start ++ EvFindVolumes :: evs))
    ∧ Forall (λ e, is_log e = true) evs
    ∧ Forall (λ e, is_attach e = false) (EvFindVolumes :: evs).
Proof.
  apply (attach_keeps_existing owner_start [Some 0; Some 1] owner_store).
  - reflexivity.
  - repeat constructor; discriminate.
  - vm_compute. discriminate.
Defined.

Lemma attach_race_tolerance_witness :
  ∃ evs,
    attachMasterVolumes racing_start
    = (Ret ([Some 1], None),
       mkState racing_attached (mounted racing_start) (trace racing_start ++ evs))
    ∧ calls evs = EvFindVolumes :: (EvAttachVolume <$> ([Some 0] ++ [Some 1])).
Proof.
  apply (attach_race_tolerance racing_start [Some 0; Some 1] racing_store
           [Some 0] (Some 1) [] racing_refused racing_attached).
  - reflexivity.
  - repeat constructor; discriminate.
  - reflexivity.
  - reflexivity.
  - eapply attach_fails_cons; [reflexivity | apply attach_fails_nil].
  - reflexivity.
  - vm_compute. discriminate.
Defined.

Lemma mountpoint_derivation_witness :
  (selectMountpoint id (vol "vol-b" "i-0123" "/dev/xvdf") plain_os).1
  = Ret ("/mnt/master-data", None)
  ∧ (selectMountpoint id (vol "vol-b" "i-0123" "/dev/xvdf") container_os).1
    = Ret ("/mnt/disks/master-data", None).
Proof.
  split.
  - exact (mountpoint_derivation id plain_os
             (vol "vol-b" "i-0123" "/dev/xvdf") eq_refl).
  - exact (mountpoint_derivation id container_os
             (vol "vol-b" "i-0123" "/dev/xvdf") eq_refl).
Defined.

Lemma ambiguous_mounts_rejected_witness :
  ∃ evs,
    safeFormatAndMount false id 5 (Some 1) "/mnt/master-data" "" mounted_twice
    = (Ret (Some (Errorf "found multiple existing mounts of %q at %q"
                    [AStr "/dev/xvdf"; AStr "/mnt/master-data"])),
       mkState (mkStore (world (store twice_found)) (heap (store twice_found)))
         (mounted mounted_twice) (trace mounted_twice ++ evs))
    ∧ Forall (λ e, is_mutation e = false) evs.
Proof.
  apply (ambiguous_mounts_rejected false id mounted_twice twice_found 5 (Some 1)
           "/dev/xvdf" "/mnt/master-data" "" [master_data; boot; master_data]
           (world (store twice_found))).
  - reflexivity.
  - reflexivity.
  - vm_compute. lia.
Defined.

Lemma mount_idempotent_witness :
  ∃ evs evs',
    let w := world (store mounted_once) in
    let s1 := mkState (mkStore w (heap (store mounted_once))) (mounted mounted_once)
                (trace mounted_once ++ EvList OsMounter :: evs) in
    let s2 := mkState (mkStore w (heap (store mounted_once))) (mounted mounted_once)
                (trace s1 ++ EvList OsMounter :: evs') in
    hostMount false id "/dev/xvdf" "/mnt/master-data" "" mounted_once = (Ret None, s1)
    ∧ hostMount false id "/dev/xvdf" "/mnt/master-data" "" s1 = (Ret None, s2)
    ∧ Forall (λ e, is_log e = true) evs
    ∧ Forall (λ e, is_log e = true) evs'.
Proof.
  apply (mount_idempotent false id mounted_once "/dev/xvdf" "/mnt/master-data" ""
           [boot; master_data] (world (store mounted_once))
           [boot; master_data] (world (store mounted_once))).
  - reflexivity.
  - reflexivity.
  - reflexivity.
  - reflexivity.
Defined.

Lemma bridge_identity_check_witness :
  safeFormatAndMount true rootfs 5 (Some 1) "/mnt/master-data" "" (in_container "/dev/sdz")
  = (Ret (Some (Errorf "device already mounted at %s, but is %s and we want %s or %s"
                  [AStr "/rootfs/mnt/master-data"; AStr "/dev/sdz";
                   AStr "/rootfs/dev/xvdf"; AStr "/dev/xvdf"])),
     (bridgeMount true rootfs "/dev/xvdf" "/mnt/master-data" ""
        (hostMount true rootfs "/dev/xvdf" "/mnt/master-data" ""
           (waitForDevice 5 (Some 1) (in_container "/dev/sdz")).2).2).2).
Proof.
  exact (bridge_identity_check true rootfs (in_container "/dev/sdz")
           (waitForDevice 5 (Some 1) (in_container "/dev/sdz")).2
           (hostMount true rootfs "/dev/xvdf" "/mnt/master-data" ""
              (waitForDevice 5 (Some 1) (in_container "/dev/sdz")).2).2
           5 (Some 1) "/dev/xvdf" "/mnt/master-data" "" "/dev/sdz" 1%Z _
           eq_refl eq_refl eq_refl eq_refl).
Defined.

Lemma device_wait_unbounded_witness :
  (∃ evs,
     waitForDevice 1 (Some 1) waiting_start
     = (Running, mkState waiting_polled (mounted waiting_start)
                   (trace waiting_start ++ evs))
     ∧ calls evs = polling (Some 1) 1)
  ∧ (∃ evs,
       waitForDevice 5 (Some 1) waiting_start
       = (Ret ("/dev/xvdf", None),
          mkState waiting_found (mounted waiting_start) (trace waiting_start ++ evs))
       ∧ calls evs = polling (Some 1) 1 ++ [EvFindMountedVolume (Some 1)])
  ∧ match (waitForDevice 5 (Some 1) waiting_start).1 with
    | Ret (d, None) => d ≠ ""
    | _ => True
    end.
Proof.
  apply (device_wait_unbounded waiting_start 1 1 waiting_polled 5 "/dev/xvdf"
           waiting_found 5 (Some 1) waiting_start).
  - eapply waits_S; [reflexivity | apply waits_O].
  - reflexivity.
  - discriminate.
  - lia.
Defined.

Lemma device_wait_provider_error_witness :
  ∃ evs,
    safeFormatAndMount false id 5 (Some 1) "/mnt/master-data" "" failing_start
    = (Ret (Some gone),
       mkState failing_failed (mounted failing_start) (trace failing_start ++ evs))
    ∧ calls evs = polling (Some 1) 1 ++ [EvFindMountedVolume (Some 1)].
Proof.
  apply (device_wait_provider_error false id failing_start 1 1 failing_polled ""
           gone failing_failed 5 "/mnt/master-data" "").
  - eapply waits_S; [reflexivity | apply waits_O].
  - reflexivity.
  - lia.
Defined.

(** ** The further properties at work *)

Import Faults.

Lemma listing_error_propagates_witness :
  let s' := mkState racing_store ∅ ([] ++ [EvFindVolumes]) in
  attachMasterVolumes (Volumes0 := offline_volumes) racing_start
  = (Ret ([], Some unreachable), s')
  ∧ mountMasterVolumes (Volumes0 := offline_volumes) false id 5 racing_start
    = (Ret ([], Some (Errorf "unable to attach master volumes: %v"
                        [AErr unreachable])), s').
Proof.
  exact (listing_error_propagates (Volumes0 := offline_volumes) false id
           racing_start 5 [] unreachable racing_store eq_refl).
Defined.

Lemma attach_all_refused_witness :
  ∃ evs,
    attachMasterVolumes contended
    = (Ret ([], None),
       mkState (AttachVolume (Some 1) (AttachVolume (Some 0) (store contended)).2).2
         (mounted contended) (trace contended ++ evs))
    ∧ calls evs
      = EvFindVolumes
        :: (EvAttachVolume <$> candidates (heap (store contended)) [Some 0; Some 1]).
Proof.
  apply (attach_all_refused contended [Some 0; Some 1] (store contended)).
  - reflexivity.
  - repeat constructor; discriminate.
  - reflexivity.
  - eapply attach_fails_cons; [reflexivity|].
    eapply attach_fails_cons; [reflexivity | apply attach_fails_nil].
Defined.

Lemma attach_result_attached_witness :
  Forall (λ v, has_device (heap (store (attachMasterVolumes racing_start).2)) v = true)
    [Some 1]
  ∧ (@None error = None ∨ [Some 1] = @nil ptr)
  ∧ (length [Some 1]
     ≤ Nat.max 1 (length (locallyAttached
                            (heap (FindVolumes (store racing_start)).2)
                            (FindVolumes (store racing_start)).1.1)))%nat.
Proof.
  exact (attach_result_attached racing_start (attachMasterVolumes racing_start).2
           [Some 1] None eq_refl).
Defined.

Lemma call_errors_witness :
  @nil ptr = []
  ∧ ((∃ e', Errorf "unable to attach master volumes: %v" [AErr unreachable]
            = Errorf "unable to attach master volumes: %v" [AErr e']
            ∧ (FindVolumes (Volumes := offline_volumes) (store racing_start)).1.2
              = Some e')
     ∨ (∃ e', Errorf "unable to attach master volumes: %v" [AErr unreachable]
              = Errorf "error checking for /mnt/disks: %v" [AErr e']
              ∧ os_IsNotExist e' = false)).
Proof.
  exact (call_errors (Volumes0 := offline_volumes) false id racing_start
           (mountMasterVolumes (Volumes0 := offline_volumes) false id 5
              racing_start).2
           5 [] _ eq_refl).
Defined.

Lemma settled_call_witness :
  mountMasterVolumes false id 5 settled
  = (Ret ([Some 1], None), (attachMasterVolumes settled).2).
Proof.
  apply (settled_call false id settled (attachMasterVolumes settled).2 5
           "vol-b" (Some 1) [Some 1]).
  - vm_compute. reflexivity.
  - reflexivity.
Defined.

Lemma stat_error_aborts_witness :
  mountMasterVolumes (Host0 := faulty_host true false false) false id 5 owner_start
  = (Ret ([], Some (Errorf "error checking for /mnt/disks: %v" [AErr denied])),
     mkState (mkStore (world owner_store)
                (heap (store (attachMasterVolumes owner_start).2))) ∅
       (trace (attachMasterVolumes owner_start).2
        ++ [EvLog (V 2) "Master volume %q is attached at %q"
              [AStr (ProviderID (heap (store (attachMasterVolumes owner_start).2) 1));
               AStr (LocalDevice (heap (store (attachMasterVolumes owner_start).2) 1))];
            EvStat (id "/mnt/disks")])).
Proof.
  apply (stat_error_aborts (Host0 := faulty_host true false false) false id
           owner_start (attachMasterVolumes owner_start).2 5 1 [] denied
           (world owner_store)).
  - reflexivity.
  - reflexivity.
  - reflexivity.
  - reflexivity.
Defined.

Lemma mount_recorded_witness :
  let r := mountLoop false id 5 [Some 1; Some 0] owner_start in
  r.1 = Ret None
  ∧ mounted r.2 = {["vol-b" := Some 1]}
  ∧ Mountpoint (heap (store r.2) 1) = "/mnt/master-data".
Proof.
  intros r. subst r.
  rewrite (mount_recorded false id owner_start owner_selected owner_mounted 5 1
             [Some 0] "/mnt/master-data");
    [| reflexivity | reflexivity | reflexivity].
  vm_compute. done.
Defined.

Lemma mount_failure_skipped_witness :
  mounted ambiguous_failed = ∅
  ∧ mountLoop false id 5 [Some 1] ambiguous_start
    = mountLoop false id 5 []
        (glog Warning "unable to mount master volume: %q"
           [AErr (Errorf "found multiple existing mounts of %q at %q"
                    [AStr "/dev/xvdf"; AStr "/mnt/master-data"])]
           ambiguous_failed).2.
Proof.
  apply (mount_failure_skipped false id ambiguous_start ambiguous_selected
           ambiguous_failed 5 1 [] "/mnt/master-data").
  - reflexivity.
  - reflexivity.
  - reflexivity.
Defined.

Lemma fresh_mount_witness :
  ∃ evs,
    Forall (λ e, is_log e = true) evs
    ∧ hostMount false id "/dev/xvdf" "/mnt/master-data" "" plain_os
      = (Ret None,
         mkState
           (mkStore (mkMachine [] [] [] [] [master_data] ["/mnt/master-data"])
              (heap (store plain_os)))
           (mounted plain_os)
           ((trace plain_os ++ EvList OsMounter :: evs
             ++ [EvLog Info "Creating mount directory %q" [AStr "/mnt/master-data"];
                 EvMkdirAll "/mnt/master-data" 488])
            ++ [EvLog Info "Mounting device %q on %q"
                  [AStr "/dev/xvdf"; AStr "/mnt/master-data"];
                EvFormatAndMount OsMounter "/dev/xvdf" "/mnt/master-data" "" []])).
Proof.
  exact (fresh_mount false id plain_os "/dev/xvdf" "/mnt/master-data" "" []
           (world (store plain_os)) eq_refl eq_refl).
Defined.

Lemma listing_mounts_error_witness :
  let s1 := (waitForDevice 5 (Some 1) mounted_once).2 in
  safeFormatAndMount (Host0 := faulty_host false true false) false id 5 (Some 1)
    "/mnt/master-data" "" mounted_once
  = (Ret (Some (Errorf "error listing existing mounts: %v" [AErr denied])),
     mkState (mkStore (world (store s1)) (heap (store s1))) (mounted s1)
       (trace s1 ++ [EvList (hostMounter false)])).
Proof.
  exact (listing_mounts_error (Host0 := faulty_host false true false) false id
           mounted_once (waitForDevice 5 (Some 1) mounted_once).2 5 (Some 1)
           "/dev/xvdf" "/mnt/master-data" "" [] denied _ eq_refl eq_refl).
Defined.

Lemma bridge_query_error_witness :
  let s1 := (waitForDevice 5 (Some 1) (in_container "")).2 in
  let s2 := (hostMount (Host0 := faulty_host false false true) true rootfs
               "/dev/xvdf" "/mnt/master-data" "" s1).2 in
  safeFormatAndMount (Host0 := faulty_host false false true) true rootfs 5 (Some 1)
    "/mnt/master-data" "" (in_container "")
  = (Ret (Some (Errorf "error checking for mounts of %s inside container: %v"
                  [AStr (rootfs "/mnt/master-data"); AErr denied])),
     mkState (mkStore (world (store s2)) (heap (store s2))) (mounted s2)
       (trace s2 ++ [EvGetDeviceNameFromMount OsMounter (rootfs "/mnt/master-data")])).
Proof.
  exact (bridge_query_error (Host0 := faulty_host false false true) true rootfs
           (in_container "") (waitForDevice 5 (Some 1) (in_container "")).2
           (hostMount (Host0 := faulty_host false false true) true rootfs
              "/dev/xvdf" "/mnt/master-data" ""
              (waitForDevice 5 (Some 1) (in_container "")).2).2
           5 (Some 1) "/dev/xvdf" "/mnt/master-data" "" "" 0%Z denied _
           eq_refl eq_refl eq_refl eq_refl).
Defined.

Lemma nil_volume_panics_witness :
  attachMasterVolumes with_nil
  = (Panic, mkState (store with_nil) (mounted with_nil)
              (trace with_nil ++ [EvFindVolumes])).
Proof.
  apply (nil_volume_panics with_nil [Some 0; None] (store with_nil)).
  - reflexivity.
  - repeat constructor.
Defined.

Lemma call_returns_at_most_one_witness :
  (length [Some 1 : ptr] ≤ 1)%nat
  ∧ Forall (λ v, ∃ key, mounted (mountMasterVolumes false id 5 settled).2 !! key
                        = Some v) [Some 1].
Proof.
  apply (call_returns_at_most_one false id settled
           (mountMasterVolumes false id 5 settled).2 5 [Some 1] None).
  - apply reach_call, reach_new.
  - vm_compute. reflexivity.
Defined.
